(** * xmltrace: the test execution engine, embedded and verified

    A shallow embedding of the Python sources
    [test_runner.py], [xml_parser.py], [http_client.py] and
    [stats_collector.py].  Python [str] is [string] (ASCII text), [dict]
    is [gmap], unbounded [int] is [Z]; wall-clock readings are integers
    handed in from outside.  The mutable objects the runner works on (the
    configuration, the statistics, the requests sent so far) are threaded
    through explicitly as one state record; logging has no part in it. *)

From Stdlib Require Import ZArith Ascii String DecimalString.
From stdpp Require Import base gmap strings list fin_maps.

Local Open Scope Z_scope.

(** ** Python values and strings *)

(** The values a YAML configuration or a command line can put into a
    template field or a parameter mapping. *)
Inductive pyval : Type :=
  | VNone
  | VBool (b : bool)
  | VInt (z : Z)
  | VStr (s : string).

Global Instance pyval_eq_dec : EqDecision pyval.
Proof. solve_decision. Defined.

Definition Z_to_string (z : Z) : string :=
  NilZero.string_of_int (Z.to_int z).

(** [str(v)] *)
Definition py_str (v : pyval) : string :=
  match v with
  | VNone => "None"
  | VBool true => "True"
  | VBool false => "False"
  | VInt z => Z_to_string z
  | VStr s => s
  end.

Definition ascii_in (lo hi c : ascii) : bool :=
  ((nat_of_ascii lo <=? nat_of_ascii c) && (nat_of_ascii c <=? nat_of_ascii hi))%nat.

(** [\w] on ASCII text: letters, digits and the underscore. *)
Definition is_word (c : ascii) : bool :=
  ascii_in "a" "z" c || ascii_in "A" "Z" c || ascii_in "0" "9" c
  || Ascii.eqb c "_".

(** [c in s] for a one-character [c]. *)
Fixpoint contains (c : ascii) (s : string) : bool :=
  match s with
  | EmptyString => false
  | String d s' => Ascii.eqb c d || contains c s'
  end.

(** [s.split(c, 1)]: the text before the first [c] and the text after it;
    [None] when [c] does not occur (the split then has one element only). *)
Fixpoint split_once (c : ascii) (s : string) : option (string * string) :=
  match s with
  | EmptyString => None
  | String d s' =>
      if Ascii.eqb c d then Some (EmptyString, s')
      else match split_once c s' with
           | Some (a, b) => Some (String d a, b)
           | None => None
           end
  end.

(** [s[:-1]] *)
Fixpoint drop_last (s : string) : string :=
  match s with
  | EmptyString => EmptyString
  | String c EmptyString => EmptyString
  | String c s' => String c (drop_last s')
  end.

Fixpoint lstrip (p : ascii -> bool) (s : string) : string :=
  match s with
  | EmptyString => EmptyString
  | String c s' => if p c then lstrip p s' else s
  end.

Fixpoint rstrip (p : ascii -> bool) (s : string) : string :=
  match s with
  | EmptyString => EmptyString
  | String c s' =>
      match rstrip p s' with
      | EmptyString => if p c then EmptyString else String c EmptyString
      | r => String c r
      end
  end.

(** [s.strip(chars)] with the character set given as a predicate. *)
Definition strip (p : ascii -> bool) (s : string) : string :=
  rstrip p (lstrip p s).

Definition is_quote (c : ascii) : bool :=
  Ascii.eqb c "'" || Ascii.eqb c "034".

Definition is_space (c : ascii) : bool :=
  Ascii.is_space c || Ascii.eqb c "028" || Ascii.eqb c "029"
  || Ascii.eqb c "030" || Ascii.eqb c "031".

Fixpoint all_chars (p : ascii -> bool) (s : string) : bool :=
  match s with
  | EmptyString => true
  | String c s' => p c && all_chars p s'
  end.

(** [s.split(c)[-1]]: the text after the last [c], the whole of [s] when
    there is none. *)
Fixpoint last_segment (c : ascii) (s : string) : string :=
  match s with
  | EmptyString => EmptyString
  | String d s' =>
      if contains c s' then last_segment c s'
      else if Ascii.eqb c d then s' else s
  end.

(** [s.split(c)[0]] *)
Fixpoint first_segment (c : ascii) (s : string) : string :=
  match s with
  | EmptyString => EmptyString
  | String d s' => if Ascii.eqb c d then EmptyString else String d (first_segment c s')
  end.

Fixpoint starts_with (p s : string) : option string :=
  match p, s with
  | EmptyString, _ => Some s
  | String a p', String b s' => if Ascii.eqb a b then starts_with p' s' else None
  | String _ _, EmptyString => None
  end.

(** [s.replace(old, new)] for a non-empty [old]: occurrences are replaced
    from the left, without overlap.  [n] bounds the number of characters
    still to be scanned. *)
Fixpoint replace_fuel (n : nat) (old new s : string) : string :=
  match n with
  | O => s
  | S n' =>
      match starts_with old s with
      | Some rest =>
          match s with
          | EmptyString => EmptyString
          | _ => new +:+ replace_fuel n' old new rest
          end
      | None =>
          match s with
          | EmptyString => EmptyString
          | String c s' => String c (replace_fuel n' old new s')
          end
      end
  end.

Definition replace (old new s : string) : string :=
  replace_fuel (String.length s) old new s.

Definition upper_char (c : ascii) : ascii :=
  if ascii_in "a" "z" c then ascii_of_nat (nat_of_ascii c - 32) else c.

(** [s.upper()] on ASCII text. *)
Fixpoint upper (s : string) : string :=
  match s with
  | EmptyString => EmptyString
  | String c s' => String (upper_char c) (upper s')
  end.

(** ** Variable substitution ([TestRunner._substitute_variables]) *)

(** Greedy [\w*]: the longest run of word characters and what follows. *)
Fixpoint take_word (s : string) : string * string :=
  match s with
  | EmptyString => (EmptyString, EmptyString)
  | String c s' =>
      if is_word c then (let (w, r) := take_word s' in (String c w, r))
      else (EmptyString, s)
  end.

(** The pattern [\{(\w+)\}] matched at the start of [s]: group 1 and the
    text after the match.  A closing brace is no word character, so the
    greedy run is the only candidate for the group. *)
Definition match_placeholder (s : string) : option (string * string) :=
  match s with
  | String "{" s1 =>
      match take_word s1 with
      | (String c w, String "}" rest) => Some (String c w, rest)
      | _ => None
      end
  | _ => None
  end.

(** [replace_match]: [str(variables.get(key, match.group(0)))]. *)
Definition replace_match (variables : gmap string pyval) (key : string) : string :=
  match variables !! key with
  | Some v => py_str v
  | None => "{" +:+ key +:+ "}"
  end.

(** [re.sub(r'\{(\w+)\}', replace_match, text)]: one scan from the left;
    where the pattern matches, the replacement is emitted and the scan
    resumes after the match, elsewhere one character is copied. *)
Fixpoint re_sub_fuel (n : nat) (variables : gmap string pyval) (s : string) : string :=
  match n with
  | O => s
  | S n' =>
      match s with
      | EmptyString => EmptyString
      | String c s' =>
          match match_placeholder s with
          | Some (key, rest) =>
              replace_match variables key +:+ re_sub_fuel n' variables rest
          | None => String c (re_sub_fuel n' variables s')
          end
      end
  end.

Definition re_sub_placeholders (variables : gmap string pyval) (s : string) : string :=
  re_sub_fuel (String.length s) variables s.

Definition _substitute_variables (text : pyval) (variables : gmap string pyval) : pyval :=
  match text with
  | VStr s => VStr (re_sub_placeholders variables s)
  | other => other
  end.

(** No position of [s] starts a placeholder. *)
Fixpoint no_placeholder (s : string) : bool :=
  match s with
  | EmptyString => true
  | String c s' =>
      match match_placeholder s with
      | Some _ => false
      | None => no_placeholder s'
      end
  end.

(** [s] is a placeholder identifier: one or more word characters. *)
Fixpoint all_word (s : string) : bool :=
  match s with
  | EmptyString => true
  | String c s' => is_word c && all_word s'
  end.

Definition is_identifier (s : string) : bool :=
  match s with
  | EmptyString => false
  | _ => all_word s
  end.


(** ** Exceptions *)

(** The one exception a test run lets escape: [re.error], raised by
    [re.search] on a pattern that does not compile. *)
Inductive py_exception : Type :=
  | re_error (pattern : string).

Inductive py_result (A : Type) : Type :=
  | Returned (a : A)
  | Raised (e : py_exception).
Arguments Returned {A} a.
Arguments Raised {A} e.

(** ** The document tree *)

(** Modelled from the spec: BeautifulSoup is a library outside the
    repository; its tree is taken as the typed tree of section 9 of the
    specification (tag name, attribute mapping, children, text), searched
    by descendant traversal with exact string comparison of names and
    attribute values. *)
#[warnings="-register-all"]
Inductive element : Type :=
  | Element (name : string) (attrs : gmap string string)
            (children : list element) (text : string).

Definition el_name (e : element) : string :=
  match e with Element n _ _ _ => n end.
Definition el_attrs (e : element) : gmap string string :=
  match e with Element _ a _ _ => a end.
Definition el_children (e : element) : list element :=
  match e with Element _ _ c _ => c end.

(** The element and everything below it, in document order. *)
Fixpoint descendants_or_self (e : element) : list element :=
  match e with
  | Element _ _ cs _ =>
      e :: (fix over (l : list element) : list element :=
              match l with
              | [] => []
              | c :: l' => descendants_or_self c ++ over l'
              end) cs
  end.

(** A parsed document: its top-level elements. *)
Definition document : Type := list element.

Definition all_elements (d : document) : list element :=
  flat_map descendants_or_self d.

(** [e] is the element [root] or lies below it, at any depth. *)
Inductive occurs_in (e : element) : element -> Prop :=
  | occurs_here : occurs_in e e
  | occurs_below (parent child : element) :
      child ∈ el_children parent -> occurs_in e child -> occurs_in e parent.

(** [e] exists anywhere in the tree. *)
Definition occurs_in_document (e : element) (d : document) : Prop :=
  exists root, root ∈ d /\ occurs_in e root.

Definition element_matches (tag_name : string) (attr : option (string * string))
    (e : element) : bool :=
  bool_decide (el_name e = tag_name)
  && match attr with
     | None => true
     | Some (k, v) => bool_decide (el_attrs e !! k = Some v)
     end.

(** [soup.find_all(tag_name, attrs)] with at most one attribute. *)
Definition soup_find_all (d : document) (tag_name : string)
    (attr : option (string * string)) : list element :=
  List.filter (element_matches tag_name attr) (all_elements d).

(** [soup.find(tag_name, attrs)] *)
Definition soup_find (d : document) (tag_name : string)
    (attr : option (string * string)) : option element :=
  head (soup_find_all d tag_name attr).

(** ** HTTP data *)

Record request : Type := {
  req_method : string;
  req_url : string;
  req_headers : gmap string pyval;
  req_data : pyval;
  req_params : gmap string pyval;
  req_timeout : Z
}.

Record http_response : Type := {
  resp_status_code : Z;
  resp_headers : gmap string string;
  resp_text : string
}.

(** An instance of [requests.exceptions.RequestException]: whether it is
    also an instance of [Timeout], of [ConnectionError], and its [str]. *)
Record request_exception : Type := {
  exc_is_timeout : bool;
  exc_is_connection_error : bool;
  exc_str : string
}.

Inductive transport_result : Type :=
  | Responded (r : http_response)
  | Failed (e : request_exception).

(** ** The libraries and the clock *)

(** What the engine calls outside the repository.  [None] stands for a
    raised exception where the call site has a handler or lets it escape.
    The counters given to [requests_request], [elapsed_ms] and
    [now_isoformat] are the number of requests sent, respectively of
    results recorded, before the call. *)
Record environment : Type := {
  BeautifulSoup : string -> option document;
  soup_select : document -> string -> option (list element);
  soup_prettify : document -> string;
  re_search_dotall : string -> string -> option bool;
  requests_request : nat -> request -> transport_result;
  elapsed_ms : nat -> Z;
  now_isoformat : nat -> string
}.

(** ** [http_client.py] *)

Record HTTPClient : Type := {
  base_url : string;
  timeout : Z;
  default_headers : gmap string pyval
}.

(** The dictionary [send_request] returns; [rd_error] is absent on a
    received response. *)
Record response_dict : Type := {
  rd_status_code : option Z;
  rd_headers : gmap string string;
  rd_content : string;
  rd_response_time_ms : Z;
  rd_success : bool;
  rd_error : option string
}.

Definition _build_url (c : HTTPClient) (path : string) : string :=
  base_url c +:+ path.

Definition build_request (c : HTTPClient) (method path : string)
    (headers : gmap string pyval) (data : pyval) (params : gmap string pyval)
    : request :=
  {| req_method := method;
     req_url := _build_url c path;
     req_headers := headers ∪ default_headers c;
     req_data := data;
     req_params := params;
     req_timeout := timeout c |}.

(** The [try] of [send_request] with its three handlers, tried in the
    order they are written. *)
Definition normalize_outcome (t : transport_result) (ms : Z) : response_dict :=
  match t with
  | Responded r =>
      {| rd_status_code := Some (resp_status_code r);
         rd_headers := resp_headers r;
         rd_content := resp_text r;
         rd_response_time_ms := ms;
         rd_success := true;
         rd_error := None |}
  | Failed e =>
      if exc_is_timeout e then
        {| rd_status_code := None; rd_headers := ∅;
           rd_content := "Request Timed Out";
           rd_response_time_ms := ms; rd_success := false;
           rd_error := Some "Timeout" |}
      else if exc_is_connection_error e then
        {| rd_status_code := None; rd_headers := ∅;
           rd_content := "Connection Error";
           rd_response_time_ms := ms; rd_success := false;
           rd_error := Some "ConnectionError" |}
      else
        {| rd_status_code := None; rd_headers := ∅;
           rd_content := "An unexpected request error occurred: " +:+ exc_str e;
           rd_response_time_ms := ms; rd_success := false;
           rd_error := Some (exc_str e) |}
  end.

(** ** [stats_collector.py] *)

Record validation_results : Type := {
  xml_parseable : option bool;
  xpath_validation : option bool;
  regex_validation : option bool
}.

Record details : Type := {
  d_status_code : option Z;
  d_response_time_ms : Z;
  d_response_success : bool;
  d_validation_results : validation_results
}.

(** One entry of [stats["test_results"]]; [tr_details = None] is the
    empty dictionary. *)
Record test_result : Type := {
  tr_test_name : string;
  tr_status : string;
  tr_timestamp : string;
  tr_response_time_ms : option Z;
  tr_details : option details;
  tr_error_message : option string
}.

Record stats : Type := {
  total_tests : Z;
  passed_tests : Z;
  failed_tests : Z;
  skipped_tests : Z;
  test_results : list test_result
}.

Definition initial_stats : stats :=
  {| total_tests := 0; passed_tests := 0; failed_tests := 0;
     skipped_tests := 0; test_results := [] |}.

(** The [if]/[elif] chain over the status label: the new values of the
    passed, failed and skipped counters. *)
Definition tally (status : string) (s : stats) : Z * Z * Z :=
  if String.eqb status "PASS" then
    (passed_tests s + 1, failed_tests s, skipped_tests s)
  else if String.eqb status "FAIL" then
    (passed_tests s, failed_tests s + 1, skipped_tests s)
  else if String.eqb status "SKIP" then
    (passed_tests s, failed_tests s, skipped_tests s + 1)
  else if String.eqb status "ERROR" then
    (passed_tests s, failed_tests s + 1, skipped_tests s)
  else
    (passed_tests s, failed_tests s, skipped_tests s).

Definition record_test_result (now : string) (s : stats) (test_name status : string)
    (response_time_ms : option Z) (det : option details)
    (error_message : option string) : stats :=
  let result :=
    {| tr_test_name := test_name; tr_status := status; tr_timestamp := now;
       tr_response_time_ms := response_time_ms; tr_details := det;
       tr_error_message := error_message |} in
  let '(p, f, k) := tally status s in
  {| total_tests := total_tests s + 1;
     passed_tests := p; failed_tests := f; skipped_tests := k;
     test_results := test_results s ++ [result] |}.

(** The arguments of one call of [record_test_result] and the clock
    reading taken in it. *)
Record recording : Type := {
  rec_now : string;
  rec_test_name : string;
  rec_status : string;
  rec_response_time_ms : option Z;
  rec_details : option details;
  rec_error_message : option string
}.

Definition record_one (s : stats) (r : recording) : stats :=
  record_test_result (rec_now r) s (rec_test_name r) (rec_status r)
    (rec_response_time_ms r) (rec_details r) (rec_error_message r).

(** A sequence of calls on one collector. *)
Definition record_all (rs : list recording) (s : stats) : stats :=
  fold_left record_one rs s.

Definition known_status (status : string) : bool :=
  String.eqb status "PASS" || String.eqb status "FAIL"
  || String.eqb status "SKIP" || String.eqb status "ERROR".

(** How often a status occurs in a result sequence. *)
Definition count_status (status : string) (l : list test_result) : Z :=
  Z.of_nat (length (List.filter (fun r => String.eqb (tr_status r) status) l)).

(** ** Test-case definitions and the run state *)

(** One mapping of the [tests] list; an absent key is [None]
    ([VNone] for the body). *)
Record test_case : Type := {
  tc_name : option string;
  tc_method : option string;
  tc_path : option string;
  tc_expected_status : option Z;
  tc_body : pyval;
  tc_headers : option (gmap string pyval);
  tc_params : option (gmap string pyval);
  tc_validation_xpath : option string;
  tc_validation_regex : option string
}.

Definition set_params (tc : test_case) (p : gmap string pyval) : test_case :=
  {| tc_name := tc_name tc; tc_method := tc_method tc; tc_path := tc_path tc;
     tc_expected_status := tc_expected_status tc; tc_body := tc_body tc;
     tc_headers := tc_headers tc; tc_params := Some p;
     tc_validation_xpath := tc_validation_xpath tc;
     tc_validation_regex := tc_validation_regex tc |}.

(** The objects a run works on: the loaded configuration (each test case
    owns its [params] dictionary), the collector's statistics, and the
    requests handed to the transport so far. *)
Record state : Type := {
  tests_config : list test_case;
  collector : stats;
  sent : list request
}.

Inductive outcome : Type :=
  | Finished (st : state)
  | Aborted (e : py_exception) (st : state).

Definition outcome_state (o : outcome) : state :=
  match o with Finished st => st | Aborted _ st => st end.

(** Python truthiness of the optional values the runner tests. *)
Definition truthy_str (o : option string) : bool :=
  match o with Some (String _ _) => true | _ => false end.

Definition truthy_int (o : option Z) : bool :=
  match o with Some z => negb (z =? 0) | None => false end.

Definition truthy_list {A} (o : option (list A)) : bool :=
  match o with Some (_ :: _) => true | _ => false end.

Definition truthy_dict (o : option (gmap string pyval)) : bool :=
  match o with Some m => negb (bool_decide (m = ∅)) | None => false end.

(** The message so far, followed by [; ] when there is one, then the
    reason. *)
Definition add_reason (error_message : option string) (reason : string) : option string :=
  Some ((if truthy_str error_message then default EmptyString error_message +:+ "; "
         else EmptyString) +:+ reason).

(** The failed reasons of a case, joined the way the runner accumulates
    its error message. *)
Definition join_reasons (reasons : list string) : option string :=
  match reasons with
  | [] => None
  | r :: rest => Some (fold_left (fun acc x => acc +:+ "; " +:+ x) rest r)
  end.

(** The counters tell what the result sequence holds. *)
Definition counters_agree (s : stats) : Prop :=
  total_tests s = Z.of_nat (length (test_results s))
  /\ passed_tests s = count_status "PASS" (test_results s)
  /\ failed_tests s =
     count_status "FAIL" (test_results s) + count_status "ERROR" (test_results s)
  /\ skipped_tests s = count_status "SKIP" (test_results s).

(** ** [xml_parser.py] and [test_runner.py] over an environment *)

(** [XMLParser.find_all] and [XMLParser.find], on the [soup] attribute. *)
Definition find_all (soup : option document) (tag_name : string)
    (attributes : option (string * string)) : list element :=
  match soup with
  | Some d => soup_find_all d tag_name attributes
  | None => []
  end.

Definition find (soup : option document) (tag_name : string)
    (attributes : option (string * string)) : option element :=
  match soup with
  | Some d => soup_find d tag_name attributes
  | None => None
  end.

Section Engine.

Variable env : environment.

(** [XMLParser.__init__]: the [soup] attribute. *)
Definition XMLParser (xml_content : string) : option document :=
  match xml_content with
  | EmptyString => None
  | _ => BeautifulSoup env xml_content
  end.

(** The first [try] block of [validate_xpath_like]: [Some b] when it
    returns [b], [None] when unpacking the split at [=] raises
    [ValueError] and the handler passes on. *)
Definition attribute_filter (d : document) (expr : string) : option bool :=
  match split_once "[" expr with
  | Some (tag_name, attr_part) =>
      match split_once "=" (drop_last attr_part) with
      | Some (attr_name, attr_value) =>
          let attr_value := strip is_quote attr_value in
          Some (0 <? Z.of_nat (length (soup_find_all d tag_name (Some (attr_name, attr_value)))))
      | None => None
      end
  | None => None
  end.

(** Which of the three attempts produced the answer. *)
Inductive xpath_step : Type :=
  | NoSoup
  | AttributeFilter
  | CssSelector
  | TagFallback.

Definition validate_xpath_like_step (soup : option document) (expr : string)
    : xpath_step * bool :=
  match soup with
  | None => (NoSoup, false)
  | Some d =>
      match (if contains "[" expr && contains "]" expr
             then attribute_filter d expr else None) with
      | Some b => (AttributeFilter, b)
      | None =>
          let css_selector := replace "/" " > " (replace "//" " " expr) in
          match soup_select env d css_selector with
          | Some found => (CssSelector, 0 <? Z.of_nat (length found))
          | None =>
              let tag := strip is_space (first_segment "[" (last_segment "/" expr)) in
              (TagFallback, bool_decide (find soup tag None <> None))
          end
      end
  end.

Definition validate_xpath_like (soup : option document) (expr : string) : bool :=
  snd (validate_xpath_like_step soup expr).

Definition validate_content_regex (soup : option document) (regex_pattern : string)
    : py_result bool :=
  match soup with
  | None => Returned false
  | Some d =>
      match soup_prettify env d with
      | EmptyString => Returned false
      | pretty =>
          match re_search_dotall env regex_pattern pretty with
          | Some b => Returned b
          | None => Raised (re_error regex_pattern)
          end
      end
  end.

(** [HTTPClient.send_request], as the [k]-th request of the run. *)
Definition send_request (c : HTTPClient) (k : nat) (method path : string)
    (headers : gmap string pyval) (data : pyval) (params : gmap string pyval)
    : response_dict :=
  normalize_outcome
    (requests_request env k (build_request c method path headers data params))
    (elapsed_ms env k).

Definition record (st : state) (test_name status : string)
    (response_time_ms : option Z) (det : option details)
    (error_message : option string) : state :=
  {| tests_config := tests_config st;
     collector :=
       record_test_result (now_isoformat env (length (test_results (collector st))))
         (collector st) test_name status response_time_ms det error_message;
     sent := sent st |}.

(** The [else] branch of the status checks: parsing and the two
    validations.  Returns the validation results, the error message and
    [xml_validation_pass]. *)
Definition validate_response (response : response_dict)
    (validation_xpath validation_regex : option string)
    : py_result (validation_results * option string * bool) :=
  let soup := XMLParser (rd_content response) in
  match soup, rd_content response with
  | None, String _ _ =>
      Returned ({| xml_parseable := Some false; xpath_validation := None;
                   regex_validation := None |},
                Some "Could not parse XML response.", false)
  | _, _ =>
      let '(xpath_recorded, error_message, pass) :=
        match validation_xpath with
        | Some (String _ _ as q) =>
            let xpath_result := validate_xpath_like soup q in
            if xpath_result then (Some true, None, true)
            else (Some false,
                  add_reason None ("XPath validation failed for '" +:+ q +:+ "'"),
                  false)
        | _ => (None, None, true)
        end in
      match validation_regex with
      | Some (String _ _ as r) =>
          match validate_content_regex soup r with
          | Raised e => Raised e
          | Returned regex_result =>
              let vr := {| xml_parseable := Some true;
                           xpath_validation := xpath_recorded;
                           regex_validation := Some regex_result |} in
              if regex_result then Returned (vr, error_message, pass)
              else Returned
                     (vr,
                      add_reason error_message
                        ("Regex validation failed for '" +:+ r +:+ "'"),
                      false)
          end
      | _ =>
          Returned ({| xml_parseable := Some true;
                       xpath_validation := xpath_recorded;
                       regex_validation := None |}, error_message, pass)
      end
  end.

Definition no_results : validation_results :=
  {| xml_parseable := None; xpath_validation := None; regex_validation := None |}.

(** The verdict on a response: the status label, the validation results
    of the details, and the error message. *)
Definition evaluate_response (tc : test_case) (response : response_dict)
    : py_result (string * validation_results * option string) :=
  let expected_status := tc_expected_status tc in
  if negb (rd_success response) then
    Returned ("FAIL", no_results,
              Some ("HTTP Request failed: "
                    +:+ default "Unknown Error" (rd_error response)))
  else if truthy_int expected_status
          && negb (bool_decide (rd_status_code response = expected_status)) then
    Returned ("FAIL", no_results,
              Some ("Expected status " +:+ Z_to_string (default 0 expected_status)
                    +:+ ", got "
                    +:+ py_str (from_option VInt VNone (rd_status_code response))))
  else
    match validate_response response (tc_validation_xpath tc)
            (tc_validation_regex tc) with
    | Raised e => Raised e
    | Returned (vr, error_message, xml_validation_pass) =>
        if xml_validation_pass && rd_success response
           && (negb (truthy_int expected_status)
               || bool_decide (rd_status_code response = expected_status))
        then Returned ("PASS", vr, error_message)
        else Returned ("FAIL", vr, error_message)
    end.

Definition test_name_of (tc : test_case) : string :=
  default "Unnamed Test" (tc_name tc).

(** [test_names_to_run and test_name not in test_names_to_run] *)
Definition not_in_run_list (test_names_to_run : option (list string))
    (tc : test_case) : bool :=
  truthy_list test_names_to_run
  && negb (bool_decide (test_name_of tc ∈ default [] test_names_to_run)).

(** [current_params] after the update with the overrides. *)
Definition merged_params (override_params : option (gmap string pyval))
    (tc : test_case) : gmap string pyval :=
  if truthy_dict override_params
  then default ∅ override_params ∪ default ∅ (tc_params tc)
  else default ∅ (tc_params tc).

(** The request a test case with path template [path] is dispatched as. *)
Definition case_request (client : HTTPClient)
    (override_params : option (gmap string pyval)) (tc : test_case)
    (path : string) : request :=
  let current_params := merged_params override_params tc in
  build_request client
    (upper (default "GET" (tc_method tc)))
    (re_sub_placeholders current_params path)
    ((fun v => _substitute_variables v current_params) <$> default ∅ (tc_headers tc))
    (_substitute_variables (tc_body tc) current_params)
    current_params.

(** One iteration of the loop of [run_tests], for the test case [tc]
    stored at index [i] of the configuration. *)
Definition run_case (client : HTTPClient) (test_names_to_run : option (list string))
    (override_params : option (gmap string pyval))
    (i : nat) (tc : test_case) (st : state) : outcome :=
  let test_name := test_name_of tc in
  if not_in_run_list test_names_to_run tc then
    Finished (record st test_name "SKIP" None None (Some "Test not in run list."))
  else
    match tc_path tc with
    | Some (String _ _ as path) =>
        (* current_params is the stored dictionary itself when the case
           has one; update() then changes the configuration. *)
        let current_params := merged_params override_params tc in
        let config :=
          match tc_params tc with
          | Some _ =>
              if truthy_dict override_params
              then <[i := set_params tc current_params]> (tests_config st)
              else tests_config st
          | None => tests_config st
          end in
        let method := upper (default "GET" (tc_method tc)) in
        let substituted_path := re_sub_placeholders current_params path in
        let body := _substitute_variables (tc_body tc) current_params in
        let substituted_headers :=
          (fun v => _substitute_variables v current_params)
            <$> default ∅ (tc_headers tc) in
        let response :=
          send_request client (length (sent st)) method substituted_path
            substituted_headers body current_params in
        let st1 :=
          {| tests_config := config; collector := collector st;
             sent := sent st ++ [case_request client override_params tc path] |} in
        match evaluate_response tc response with
        | Raised e => Aborted e st1
        | Returned (test_status, vr, error_message) =>
            Finished
              (record st1 test_name test_status
                 (Some (rd_response_time_ms response))
                 (Some {| d_status_code := rd_status_code response;
                          d_response_time_ms := rd_response_time_ms response;
                          d_response_success := rd_success response;
                          d_validation_results := vr |})
                 error_message)
        end
    | _ =>
        Finished (record st test_name "ERROR" None None
                    (Some "Missing 'path' in configuration."))
    end.

(** The [for] loop: the cases are taken in order; an exception leaves
    the loop and the method. *)
Fixpoint run_loop (client : HTTPClient) (test_names_to_run : option (list string))
    (override_params : option (gmap string pyval))
    (i : nat) (cases : list test_case) (st : state) : outcome :=
  match cases with
  | [] => Finished st
  | tc :: rest =>
      match run_case client test_names_to_run override_params i tc st with
      | Finished st' =>
          run_loop client test_names_to_run override_params (S i) rest st'
      | Aborted e st' => Aborted e st'
      end
  end.

(** [TestRunner.run_tests]; logging, the printed summary and the report
    file do not change the state. *)
Definition run_tests (client : HTTPClient) (test_names_to_run : option (list string))
    (override_params : option (gmap string pyval)) (st : state) : outcome :=
  run_loop client test_names_to_run override_params 0 (tests_config st) st.

End Engine.

(** ** A concrete environment and configuration *)

(** [t] contains [p] as a substring. *)
Fixpoint has_substring (p t : string) : bool :=
  match starts_with p t with
  | Some _ => true
  | None =>
      match t with
      | EmptyString => false
      | String _ t' => has_substring p t'
      end
  end.

Definition demo_body : string :=
  "<order id='A1'><item id='i1'>Laptop</item><item id='i2'>Mouse</item></order>".

Definition demo_document : document :=
  [ Element "order" {[ "id" := "A1" ]}
      [ Element "item" {[ "id" := "i1" ]} [] "Laptop";
        Element "item" {[ "id" := "i2" ]} [] "Mouse" ]
      EmptyString ].

(** A server that is down on [/down], answers 400 on [/bad] and the order
    document elsewhere; a parser that knows that document; a selector
    engine for bare tag names; a regex engine for literal patterns that
    rejects the unbalanced pattern [(]. *)
Definition demo_env : environment :=
  {| BeautifulSoup := fun s =>
       if String.eqb s demo_body then Some demo_document else None;
     soup_select := fun d css => Some (soup_find_all d css None);
     soup_prettify := fun _ => demo_body;
     re_search_dotall := fun p t =>
       if String.eqb p "(" then None else Some (has_substring p t);
     requests_request := fun _ r =>
       if String.eqb (req_url r) "http://host/down" then
         Failed {| exc_is_timeout := true; exc_is_connection_error := false;
                   exc_str := "read timed out" |}
       else if String.eqb (req_url r) "http://host/bad" then
         Responded {| resp_status_code := 400; resp_headers := ∅;
                      resp_text := "<error/>" |}
       else
         Responded {| resp_status_code := 200; resp_headers := ∅;
                      resp_text := demo_body |};
     elapsed_ms := fun _ => 12;
     now_isoformat := fun _ => "2024-01-01T00:00:00" |}.

Definition demo_client : HTTPClient :=
  {| base_url := "http://host"; timeout := 10;
     default_headers := {[ "Accept" := VStr "application/xml" ]} |}.

(** A test case with a name and a path and nothing else. *)
Definition simple_case (name path : string) : test_case :=
  {| tc_name := Some name; tc_method := None; tc_path := Some path;
     tc_expected_status := None; tc_body := VNone; tc_headers := None;
     tc_params := None; tc_validation_xpath := None;
     tc_validation_regex := None |}.

(** A fresh runner and collector over a configuration. *)
Definition initial_state (cases : list test_case) : state :=
  {| tests_config := cases; collector := initial_stats; sent := [] |}.

Definition demo_recordings : list recording :=
  [ {| rec_now := "t1"; rec_test_name := "TestProductAPI";
       rec_status := "PASS"; rec_response_time_ms := Some 120;
       rec_details := None; rec_error_message := None |};
    {| rec_now := "t2"; rec_test_name := "TestInvalidEndpoint";
       rec_status := "ERROR"; rec_response_time_ms := None;
       rec_details := None; rec_error_message := Some "Connection refused" |};
    {| rec_now := "t3"; rec_test_name := "TestSkippedFeature";
       rec_status := "SKIP"; rec_response_time_ms := None;
       rec_details := None; rec_error_message := None |} ].

(** Case [A] declares a regex pattern that does not compile. *)
Definition unbalanced_regex_case : test_case :=
  {| tc_name := Some "A"; tc_method := None; tc_path := Some "/a";
     tc_expected_status := None; tc_body := VNone; tc_headers := None;
     tc_params := None; tc_validation_xpath := None;
     tc_validation_regex := Some "(" |}.

(** A case with a default parameter that its path template uses. *)
Definition product_case : test_case :=
  {| tc_name := Some "GetProductInfo"; tc_method := None;
     tc_path := Some "/products/{product_id}";
     tc_expected_status := None; tc_body := VNone; tc_headers := None;
     tc_params := Some {[ "product_id" := VStr "1" ]};
     tc_validation_xpath := None; tc_validation_regex := None |}.

(** A case that expects status 0, which no server sends. *)
Definition zero_status_case : test_case :=
  {| tc_name := Some "B"; tc_method := None; tc_path := Some "/b";
     tc_expected_status := Some 0; tc_body := VNone; tc_headers := None;
     tc_params := None; tc_validation_xpath := None;
     tc_validation_regex := None |}.

(** A case that expects 201 from an endpoint that answers 400. *)
Definition created_case : test_case :=
  {| tc_name := Some "SubmitOrder"; tc_method := Some "post";
     tc_path := Some "/bad"; tc_expected_status := Some 201;
     tc_body := VStr "<order><item>A</item></order>"; tc_headers := None;
     tc_params := None; tc_validation_xpath := Some "order";
     tc_validation_regex := Some "item" |}.

(** A case that declares a query and an empty regex pattern. *)
Definition empty_regex_case : test_case :=
  {| tc_name := Some "C"; tc_method := None; tc_path := Some "/c";
     tc_expected_status := Some 200; tc_body := VNone; tc_headers := None;
     tc_params := None; tc_validation_xpath := Some "item";
     tc_validation_regex := Some EmptyString |}.

(** A case whose query and pattern both fail on the order document. *)
Definition both_fail_case : test_case :=
  {| tc_name := Some "D"; tc_method := None; tc_path := Some "/d";
     tc_expected_status := Some 200; tc_body := VNone; tc_headers := None;
     tc_params := None; tc_validation_xpath := Some "item[id='i9']";
     tc_validation_regex := Some "Keyboard" |}.

(** The last result a run has recorded. *)
Definition last_result (o : outcome) : option test_result :=
  last (test_results (collector (outcome_state o))).

(** ** Further parts of the sources *)

(** [validate_xpath_like], line 75: the expression as a CSS selector. *)
Definition to_css_selector (expr : string) : string :=
  replace "/" " > " (replace "//" " " expr).

(** The first [try] block of [validate_xpath_like] is entered and the
    split at [=] succeeds. *)
Definition filter_applies (expr : string) : bool :=
  contains "[" expr && contains "]" expr
  && match split_once "[" expr with
     | Some (_, attr_part) => contains "=" (drop_last attr_part)
     | None => false
     end.

(** The concrete environment with a selector engine that raises on
    every selector. *)
Definition raising_select_env : environment :=
  {| BeautifulSoup := BeautifulSoup demo_env;
     soup_select := fun _ _ => None;
     soup_prettify := soup_prettify demo_env;
     re_search_dotall := re_search_dotall demo_env;
     requests_request := requests_request demo_env;
     elapsed_ms := elapsed_ms demo_env;
     now_isoformat := now_isoformat demo_env |}.

(** The concrete environment with a server that answers 204 with an
    empty body. *)
Definition empty_body_env : environment :=
  {| BeautifulSoup := BeautifulSoup demo_env;
     soup_select := soup_select demo_env;
     soup_prettify := soup_prettify demo_env;
     re_search_dotall := re_search_dotall demo_env;
     requests_request := fun _ _ =>
       Responded {| resp_status_code := 204; resp_headers := ∅;
                    resp_text := EmptyString |};
     elapsed_ms := elapsed_ms demo_env;
     now_isoformat := now_isoformat demo_env |}.

(** The path a case is dispatched under; [None] when the case is skipped
    or has no path. *)
Definition dispatch_path (test_names_to_run : option (list string))
    (tc : test_case) : option string :=
  if not_in_run_list test_names_to_run tc then None
  else match tc_path tc with
       | Some (String c p) => Some (String c p)
       | _ => None
       end.

(** The definition a run leaves in the configuration in place of [tc]. *)
Definition stored_after (test_names_to_run : option (list string))
    (override_params : option (gmap string pyval)) (tc : test_case) : test_case :=
  match dispatch_path test_names_to_run tc, tc_params tc with
  | Some _, Some _ =>
      if truthy_dict override_params
      then set_params tc (merged_params override_params tc)
      else tc
  | _, _ => tc
  end.

(** What the result recorded for [tc] looks like, by the gate the case
    stopped at. *)
Definition result_of (test_names_to_run : option (list string))
    (tc : test_case) (r : test_result) : Prop :=
  tr_test_name r = test_name_of tc
  /\ if not_in_run_list test_names_to_run tc then
       tr_status r = "SKIP" /\ tr_details r = None
       /\ tr_response_time_ms r = None
       /\ tr_error_message r = Some "Test not in run list."
     else
       match dispatch_path test_names_to_run tc with
       | None =>
           tr_status r = "ERROR" /\ tr_details r = None
           /\ tr_response_time_ms r = None
           /\ tr_error_message r = Some "Missing 'path' in configuration."
       | Some _ =>
           (tr_status r = "PASS" \/ tr_status r = "FAIL")
           /\ tr_details r <> None /\ tr_response_time_ms r <> None
       end.

(** A result tells one story: PASS goes without error message, on a
    received response that parsed, with no validation recorded as
    failed; every other status comes with a message. *)
Definition result_consistent (r : test_result) : Prop :=
  (tr_status r = "PASS" <-> tr_error_message r = None)
  /\ (tr_status r = "PASS" ->
      exists d, tr_details r = Some d
                /\ d_response_success d = true
                /\ xml_parseable (d_validation_results d) = Some true
                /\ xpath_validation (d_validation_results d) <> Some false
                /\ regex_validation (d_validation_results d) <> Some false).

(** A definition without name and without path. *)
Definition pathless_case : test_case :=
  {| tc_name := None; tc_method := None; tc_path := None;
     tc_expected_status := None; tc_body := VNone; tc_headers := None;
     tc_params := None; tc_validation_xpath := None;
     tc_validation_regex := None |}.

(** A case with a header template and a body template. *)
Definition header_case : test_case :=
  {| tc_name := Some "Tagged"; tc_method := Some "put";
     tc_path := Some "/items/{id}"; tc_expected_status := Some 200;
     tc_body := VStr "<item>{id}</item>";
     tc_headers := Some {[ "X-Item" := VStr "item-{id}"; "Accept" := VStr "text/xml" ]};
     tc_params := Some {[ "id" := VInt 5 ]};
     tc_validation_xpath := None; tc_validation_regex := None |}.

Definition demo_suite : list test_case :=
  [ product_case; pathless_case; simple_case "Slow" "/down"; both_fail_case;
    header_case ].

Definition demo_run_list : option (list string) :=
  Some ["GetProductInfo"; "Unnamed Test"; "Slow"; "Tagged"].

Definition demo_overrides : option (gmap string pyval) :=
  Some {[ "product_id" := VStr "2" ]}.

(** ** [config_manager.py], [main.py] and [logger.py] *)

(** A value loaded from the YAML file. *)
#[warnings="-register-all"]
Inductive yaml : Type :=
  | YNone
  | YBool (b : bool)
  | YInt (z : Z)
  | YStr (s : string)
  | YList (l : list yaml)
  | YDict (m : gmap string yaml).

(** Python truthiness. *)
Definition py_truthy (v : yaml) : bool :=
  match v with
  | YNone => false
  | YBool b => b
  | YInt z => negb (z =? 0)
  | YStr s => match s with EmptyString => false | _ => true end
  | YList l => match l with [] => false | _ => true end
  | YDict m => match map_to_list m with [] => false | _ => true end
  end.

(** [s.split(c)]: all the segments between occurrences of [c]; never the
    empty list. *)
Fixpoint split_all (c : ascii) (s : string) : list string :=
  match s with
  | EmptyString => [EmptyString]
  | String d s' =>
      if Ascii.eqb c d then EmptyString :: split_all c s'
      else match split_all c s' with
           | seg :: segs => String d seg :: segs
           | [] => [String d EmptyString]
           end
  end.

Module ConfigManager.

(** The loop of [get] over the split key. *)
Fixpoint get_keys (val : yaml) (keys : list string) (default : yaml) : yaml :=
  match keys with
  | [] => val
  | k :: keys' =>
      match val with
      | YDict m =>
          match m !! k with
          | Some v => get_keys v keys' default
          | None => default
          end
      | _ => default
      end
  end.

(** [ConfigManager.get(key, default)] on the loaded configuration. *)
Definition get (config : yaml) (key : string) (default : yaml) : yaml :=
  get_keys config (split_all "." key) default.

End ConfigManager.

(** What [TestRunner.__init__] leaves behind: [ValueError], or the
    client's base URL, timeout and default headers and the test list. *)
Inductive runner_init : Type :=
  | ValueError (message : string)
  | Runner (base_url timeout default_headers tests_config : yaml).

Definition TestRunner_init (config : yaml) : runner_init :=
  let base_url := ConfigManager.get config "endpoints.base_url" YNone in
  let timeout := ConfigManager.get config "endpoints.timeout" (YInt 10) in
  let default_headers := ConfigManager.get config "endpoints.headers" (YDict ∅) in
  if negb (py_truthy base_url) then
    ValueError "Base URL is required in configuration."
  else
    Runner base_url timeout
      (match default_headers with YNone => YDict ∅ | h => h end)
      (ConfigManager.get config "tests" (YList [])).

(** [main], lines 75 to 82: the [-p key=value] arguments as a mapping. *)
Definition parse_override_params (params : list string) : gmap string pyval :=
  fold_left
    (fun override_params param =>
       if contains "=" param then
         match split_once "=" param with
         | Some (key, value) => <[key := VStr value]> override_params
         | None => override_params
         end
       else override_params)
    params ∅.


Definition demo_config_map : gmap string yaml :=
  {[ "general" := YDict {[ "log_level" := YStr "debug" ]};
     "endpoints" :=
       YDict {[ "base_url" := YStr "http://host"; "timeout" := YNone ]} ]}.

(** The same with an entry whose name holds a dot. *)
Definition demo_config : yaml :=
  YDict (<[ "endpoints.base_url" := YStr "http://elsewhere" ]> demo_config_map).

(** How many recordings carry a label outside PASS, FAIL, SKIP, ERROR. *)
Definition count_unknown (rs : list recording) : Z :=
  Z.of_nat (length (List.filter (fun r => negb (known_status (rec_status r))) rs)).
(** ** Facts about strings *)

Lemma append_cons (c : ascii) (s t : string) :
  String c s +:+ t = String c (s +:+ t).
Proof. reflexivity. Qed.

Lemma append_nil_l (t : string) : EmptyString +:+ t = t.
Proof. reflexivity. Qed.

Lemma append_nil_r (s : string) : s +:+ EmptyString = s.
Proof. induction s as [|c s IH]; [done|]. by rewrite append_cons, IH. Qed.

Lemma append_assoc (s t u : string) : (s +:+ t) +:+ u = s +:+ (t +:+ u).
Proof. induction s as [|c s IH]; [done|]. by rewrite !append_cons, IH. Qed.

Lemma length_append (s t : string) :
  String.length (s +:+ t) = (String.length s + String.length t)%nat.
Proof. induction s as [|c s IH]; [done|]. rewrite append_cons. simpl. by rewrite IH. Qed.

Lemma ascii_eqb_true (a b : ascii) : Ascii.eqb a b = true <-> a = b.
Proof. apply Ascii.eqb_eq. Qed.

Lemma ascii_eqb_false (a b : ascii) : Ascii.eqb a b = false <-> a <> b.
Proof. apply Ascii.eqb_neq. Qed.


(** ** Substitution *)

(** Case analysis on the eight bits of a character, for goals that match
    on a character literal. *)
Ltac ascii_cases c := destruct c as [[] [] [] [] [] [] [] []]; try done.

Lemma is_word_close_brace : is_word "}" = false.
Proof. reflexivity. Qed.

Lemma is_word_open_brace : is_word "{" = false.
Proof. reflexivity. Qed.

Lemma take_word_identifier (key tail : string) (c : ascii) :
  all_word key = true -> is_word c = false ->
  take_word (key +:+ String c tail) = (key, String c tail).
Proof.
  intros Hkey Hc. induction key as [|k key IH].
  - rewrite append_nil_l. simpl. by rewrite Hc.
  - simpl in Hkey. apply andb_true_iff in Hkey as [Hk Hkey].
    rewrite append_cons. simpl. rewrite Hk, (IH Hkey). done.
Qed.

Lemma match_placeholder_hit (key post : string) :
  is_identifier key = true ->
  match_placeholder ("{" +:+ key +:+ "}" +:+ post) = Some (key, post).
Proof.
  intros Hid. destruct key as [|k key]; [done|].
  unfold is_identifier in Hid.
  change ("{" +:+ String k key +:+ "}" +:+ post)
    with (String "{" (String k key +:+ String "}" post)).
  unfold match_placeholder.
  rewrite (take_word_identifier _ _ _ Hid is_word_close_brace). done.
Qed.

Lemma take_word_length (s w r : string) :
  take_word s = (w, r) ->
  String.length s = (String.length w + String.length r)%nat.
Proof.
  revert w r. induction s as [|c s IH]; intros w r H; simpl in H.
  - by inversion H.
  - destruct (is_word c).
    + destruct (take_word s) as [w' r'] eqn:E. inversion H; subst.
      simpl. by rewrite (IH _ _ eq_refl).
    + by inversion H.
Qed.

Lemma match_placeholder_shorter (s key rest : string) :
  match_placeholder s = Some (key, rest) ->
  (String.length rest < String.length s)%nat.
Proof.
  unfold match_placeholder. intros H.
  destruct s as [|c s1]; [done|].
  destruct (Ascii.eqb c "{") eqn:Ec.
  - apply ascii_eqb_true in Ec as ->.
    destruct (take_word s1) as [w r] eqn:E.
    apply take_word_length in E.
    destruct w as [|c' w]; [done|]. destruct r as [|d r]; [done|].
    destruct (Ascii.eqb d "}") eqn:Ed.
    + apply ascii_eqb_true in Ed as ->. inversion H; subst.
      simpl in *. lia.
    + apply ascii_eqb_false in Ed.
      exfalso. revert H. clear -Ed.
      by ascii_cases d.
  - apply ascii_eqb_false in Ec. exfalso. revert H. clear -Ec.
    by ascii_cases c.
Qed.

(** Once the fuel covers the text, more fuel changes nothing. *)
Lemma re_sub_fuel_enough (variables : gmap string pyval) (n m : nat) (s : string) :
  (String.length s <= n)%nat -> (String.length s <= m)%nat ->
  re_sub_fuel n variables s = re_sub_fuel m variables s.
Proof.
  revert m s. induction n as [|n IH]; intros m s Hn Hm.
  - destruct s; [|simpl in Hn; lia]. by destruct m.
  - destruct m as [|m]; [destruct s; [done|simpl in Hm; lia]|].
    simpl. destruct s as [|c s]; [done|].
    destruct (match_placeholder (String c s)) as [[key rest]|] eqn:E.
    + apply match_placeholder_shorter in E. simpl in *.
      f_equal. apply IH; lia.
    + simpl in *. f_equal. apply IH; lia.
Qed.

Lemma re_sub_placeholders_cons (variables : gmap string pyval) (c : ascii) (s : string) :
  re_sub_placeholders variables (String c s) =
  match match_placeholder (String c s) with
  | Some (key, rest) => replace_match variables key +:+ re_sub_placeholders variables rest
  | None => String c (re_sub_placeholders variables s)
  end.
Proof.
  unfold re_sub_placeholders. simpl String.length.
  cbn [re_sub_fuel].
  destruct (match_placeholder (String c s)) as [[key rest]|] eqn:E.
  - f_equal. apply match_placeholder_shorter in E. simpl in E.
    apply re_sub_fuel_enough; lia.
  - done.
Qed.

Lemma take_word_append (s x : string) (c : ascii) :
  is_word c = false ->
  take_word (s +:+ String c x) =
  match take_word s with
  | (w, EmptyString) => (w, String c x)
  | (w, r) => (w, r +:+ String c x)
  end.
Proof.
  intros Hc. induction s as [|d s IH].
  - rewrite append_nil_l. simpl. by rewrite Hc.
  - rewrite append_cons. simpl. destruct (is_word d).
    + rewrite IH. destruct (take_word s) as [w [|e r]]; done.
    + done.
Qed.

(** A placeholder-free prefix stays placeholder-free in front of an
    opening brace: a match cannot run across it. *)
Lemma match_placeholder_before_brace (c : ascii) (s x : string) :
  match_placeholder (String c s) = None ->
  match_placeholder (String c s +:+ String "{" x) = None.
Proof.
  rewrite append_cons. unfold match_placeholder.
  destruct (Ascii.eqb c "{") eqn:Ec.
  - apply ascii_eqb_true in Ec as ->.
    rewrite (take_word_append s x "{" is_word_open_brace).
    destruct (take_word s) as [w r].
    destruct w as [|c' w]; [by destruct r|].
    destruct r as [|d r]; [done|].
    rewrite append_cons. by ascii_cases d.
  - apply ascii_eqb_false in Ec. intros _.
    by ascii_cases c.
Qed.

Lemma re_sub_prefix (variables : gmap string pyval) (pre x : string) :
  no_placeholder pre = true ->
  re_sub_placeholders variables (pre +:+ String "{" x) =
  pre +:+ re_sub_placeholders variables (String "{" x).
Proof.
  induction pre as [|c pre IH]; intros Hpre; [done|].
  cbn [no_placeholder] in Hpre.
  destruct (match_placeholder (String c pre)) as [?|] eqn:E; [done|].
  assert (E' := match_placeholder_before_brace c pre x E).
  rewrite append_cons in E'.
  rewrite append_cons, re_sub_placeholders_cons, E', (IH Hpre).
  done.
Qed.


Lemma take_word_split (s w r : string) :
  take_word s = (w, r) -> s = w +:+ r /\ all_word w = true.
Proof.
  revert w r. induction s as [|c s IH]; intros w r H; simpl in H.
  - by inversion H.
  - destruct (is_word c) eqn:Ec.
    + destruct (take_word s) as [w' r'] eqn:E. inversion H; subst.
      destruct (IH _ _ eq_refl) as [-> Hw]. split; [done|].
      simpl. by rewrite Ec, Hw.
    + by inversion H.
Qed.

Lemma match_placeholder_shape (s key rest : string) :
  match_placeholder s = Some (key, rest) ->
  s = "{" +:+ key +:+ "}" +:+ rest /\ is_identifier key = true.
Proof.
  unfold match_placeholder. intros H.
  destruct s as [|c s1]; [done|].
  destruct (Ascii.eqb c "{") eqn:Ec.
  - apply ascii_eqb_true in Ec as ->.
    destruct (take_word s1) as [w r] eqn:E.
    apply take_word_split in E as [-> Hw].
    destruct w as [|c' w]; [done|]. destruct r as [|d r]; [done|].
    destruct (Ascii.eqb d "}") eqn:Ed.
    + apply ascii_eqb_true in Ed as ->. by inversion H; subst.
    + apply ascii_eqb_false in Ed. exfalso. revert H. clear -Ed.
      by ascii_cases d.
  - apply ascii_eqb_false in Ec. exfalso. revert H. clear -Ec.
    by ascii_cases c.
Qed.

(** Every text is placeholder-free or splits at its leftmost placeholder:
    the two equations of the substitution theorem reach every template. *)
Lemma leftmost_placeholder (s : string) :
  no_placeholder s = false ->
  exists pre key post,
    s = pre +:+ "{" +:+ key +:+ "}" +:+ post
    /\ no_placeholder pre = true /\ is_identifier key = true.
Proof.
  induction s as [|c s IH]; intros H; [done|].
  cbn [no_placeholder] in H.
  destruct (match_placeholder (String c s)) as [[key rest]|] eqn:E.
  - apply match_placeholder_shape in E as [-> Hid].
    by exists EmptyString, key, rest.
  - destruct (IH H) as (pre & key & post & -> & Hpre & Hid).
    exists (String c pre), key, post. split; [done|]. split; [|done].
    cbn [no_placeholder].
    destruct (match_placeholder (String c pre)) as [?|] eqn:E'; [|done].
    destruct p as [k r]. apply match_placeholder_shape in E' as [E' Hk].
    rewrite <- append_cons, E', !append_assoc in E.
    change ("{" +:+ k +:+ "}" +:+ ?x) with ("{" +:+ k +:+ "}" +:+ x) in E.
    by rewrite (match_placeholder_hit k _ Hk) in E.
Qed.



(** ** The structural query validator *)

Lemma contains_append (c : ascii) (s t : string) :
  contains c (s +:+ t) = contains c s || contains c t.
Proof.
  induction s as [|d s IH]; [done|].
  rewrite append_cons. simpl. by rewrite IH, orb_assoc.
Qed.

Lemma split_once_first (c : ascii) (a b : string) :
  contains c a = false -> split_once c (a +:+ String c b) = Some (a, b).
Proof.
  induction a as [|d a IH]; intros H.
  - rewrite append_nil_l. simpl. by rewrite Ascii.eqb_refl.
  - simpl in H. apply orb_false_iff in H as [Hd Ha].
    rewrite append_cons. simpl. by rewrite Hd, (IH Ha).
Qed.

Lemma split_once_contains (c : ascii) (s : string) :
  contains c s = true <-> exists a b, split_once c s = Some (a, b).
Proof.
  induction s as [|d s IH]; simpl.
  - split; [done|]. by intros (a & b & ?).
  - destruct (Ascii.eqb c d); simpl.
    + split; [intros _; by eexists _, _ | done].
    + rewrite IH. destruct (split_once c s) as [[a b]|].
      * split; intros _; by eexists _, _.
      * split; intros (a & b & ?); done.
Qed.

Lemma split_once_none (c : ascii) (s : string) :
  contains c s = false <-> split_once c s = None.
Proof.
  pose proof (split_once_contains c s) as H.
  destruct (split_once c s) as [[a b]|].
  - split; [|done]. intros Hc. destruct H as [_ H].
    rewrite H in Hc; [done | by eexists _, _].
  - split; [done|]. intros _. destruct (contains c s); [|done].
    destruct H as [H _]. by destruct (H eq_refl) as (? & ? & ?).
Qed.

Lemma drop_last_snoc (s : string) (c : ascii) :
  drop_last (s +:+ String c EmptyString) = s.
Proof.
  induction s as [|d s IH]; [done|].
  rewrite append_cons. simpl. rewrite IH.
  by destruct s.
Qed.

Lemma lstrip_all (p : ascii -> bool) (q s : string) :
  all_chars p q = true -> lstrip p (q +:+ s) = lstrip p s.
Proof.
  induction q as [|c q IH]; intros H; [done|].
  simpl in H. apply andb_true_iff in H as [Hc Hq].
  rewrite append_cons. simpl. by rewrite Hc, IH.
Qed.

Lemma rstrip_all_nil (p : ascii -> bool) (q : string) :
  all_chars p q = true -> rstrip p q = EmptyString.
Proof.
  induction q as [|c q IH]; intros H; [done|].
  simpl in H. apply andb_true_iff in H as [Hc Hq].
  simpl. by rewrite (IH Hq), Hc.
Qed.

Lemma rstrip_all (p : ascii -> bool) (s q : string) :
  all_chars p q = true -> rstrip p (s +:+ q) = rstrip p s.
Proof.
  intros Hq. induction s as [|c s IH].
  - rewrite append_nil_l. by apply rstrip_all_nil.
  - rewrite append_cons. simpl. by rewrite IH.
Qed.

Lemma lstrip_length (p : ascii -> bool) (s : string) :
  lstrip p s = s \/ (String.length (lstrip p s) < String.length s)%nat.
Proof.
  induction s as [|c s IH]; [by left|].
  simpl. destruct (p c); [|by left].
  right. destruct IH as [-> | ?]; lia.
Qed.

Lemma rstrip_length (p : ascii -> bool) (s : string) :
  (String.length (rstrip p s) <= String.length s)%nat.
Proof.
  induction s as [|c s IH]; [done|].
  simpl. destruct (rstrip p s) as [|d r]; [destruct (p c)|]; simpl in *; lia.
Qed.

(** A text that [strip] leaves alone is left alone at either end. *)
Lemma strip_fixed (p : ascii -> bool) (s : string) :
  strip p s = s -> lstrip p s = s /\ rstrip p s = s.
Proof.
  unfold strip. intros H.
  destruct (lstrip_length p s) as [E | Hlt].
  - by rewrite E in H.
  - pose proof (rstrip_length p (lstrip p s)) as Hle.
    rewrite H in Hle. lia.
Qed.

Lemma lstrip_fixed_append (p : ascii -> bool) (s q : string) :
  lstrip p s = s -> all_chars p q = true ->
  lstrip p (s +:+ q) = match s with EmptyString => EmptyString | _ => s +:+ q end.
Proof.
  intros Hs Hq. destruct s as [|c s].
  - rewrite append_nil_l. rewrite <- (append_nil_r q).
    by rewrite (lstrip_all p q EmptyString Hq).
  - rewrite append_cons. simpl in *. destruct (p c) eqn:Hc; [|done].
    exfalso. destruct (lstrip_length p s) as [E | Hlt].
    + rewrite E in Hs. revert Hs. clear.
      intros H. apply (f_equal String.length) in H. simpl in H. lia.
    + apply (f_equal String.length) in Hs. simpl in Hs. lia.
Qed.

Lemma strip_quoted (p : ascii -> bool) (q1 value q2 : string) :
  all_chars p q1 = true -> all_chars p q2 = true -> strip p value = value ->
  strip p (q1 +:+ value +:+ q2) = value.
Proof.
  intros H1 H2 Hv. apply strip_fixed in Hv as [Hl Hr].
  unfold strip. rewrite (lstrip_all p q1 _ H1).
  rewrite (lstrip_fixed_append p value q2 Hl H2).
  destruct value as [|c v]; [done|].
  by rewrite (rstrip_all p _ q2 H2).
Qed.

(** An induction principle that reaches the children of an element. *)
Lemma element_children_ind (P : element -> Prop) :
  (forall n a cs t, Forall P cs -> P (Element n a cs t)) ->
  forall e, P e.
Proof.
  intros step. fix IH 1. intros [n a cs t]. apply step.
  induction cs as [|c cs IHcs]; constructor; [apply IH | apply IHcs].
Qed.

Lemma descendants_or_self_unfold (n : string) (a : gmap string string)
    (cs : list element) (t : string) :
  descendants_or_self (Element n a cs t) =
  Element n a cs t :: flat_map descendants_or_self cs.
Proof.
  reflexivity.
Qed.

Lemma elem_of_flat_map {A B} (f : A -> list B) (l : list A) (y : B) :
  y ∈ flat_map f l <-> exists x, x ∈ l /\ y ∈ f x.
Proof.
  rewrite list_elem_of_In, in_flat_map.
  split; intros (x & Hx & Hy); exists x; by rewrite ?list_elem_of_In in *.
Qed.

Lemma descendants_occurs (e root : element) :
  e ∈ descendants_or_self root <-> occurs_in e root.
Proof.
  split.
  - revert root. refine (element_children_ind _ _). intros n a cs t IH H.
    rewrite descendants_or_self_unfold in H.
    apply elem_of_cons in H as [-> | H]; [constructor|].
    apply elem_of_flat_map in H as (c & Hc & He).
    apply (occurs_below e _ c); [done|].
    rewrite Forall_forall in IH. by apply IH.
  - induction 1 as [|parent child Hc _ IH].
    + destruct e. rewrite descendants_or_self_unfold. by left.
    + destruct parent as [n a cs t]. rewrite descendants_or_self_unfold.
      right. apply elem_of_flat_map. by exists child.
Qed.

Lemma all_elements_occurs (e : element) (d : document) :
  e ∈ all_elements d <-> occurs_in_document e d.
Proof.
  unfold all_elements, occurs_in_document. rewrite elem_of_flat_map.
  by setoid_rewrite descendants_occurs.
Qed.

Lemma find_all_nonempty (d : document) (tag_name attr_name attr_value : string) :
  ((0 <? Z.of_nat (length (soup_find_all d tag_name (Some (attr_name, attr_value)))))
   = true)
  <-> exists e, occurs_in_document e d /\ el_name e = tag_name
                /\ el_attrs e !! attr_name = Some attr_value.
Proof.
  unfold soup_find_all. rewrite Z.ltb_lt. split.
  - destruct (List.filter _ _) as [|e l] eqn:E; [simpl; lia|]. intros _.
    assert (He : In e (List.filter
                (element_matches tag_name (Some (attr_name, attr_value)))
                (all_elements d))) by (rewrite E; by left).
    apply filter_In in He as [Hin Hm]. unfold element_matches in Hm.
    apply andb_true_iff in Hm as [Hn Ha].
    apply bool_decide_eq_true in Hn, Ha.
    exists e. split; [|done]. apply all_elements_occurs. by apply list_elem_of_In.
  - intros (e & Hocc & Hn & Ha).
    assert (He : In e (List.filter
                (element_matches tag_name (Some (attr_name, attr_value)))
                (all_elements d))).
    { apply filter_In. split.
      - apply list_elem_of_In. by apply all_elements_occurs.
      - unfold element_matches. apply andb_true_iff.
        split; by apply bool_decide_eq_true. }
    destruct (List.filter _ _); [done|]. simpl. lia.
Qed.

Lemma attribute_filter_well_formed (env : environment) (d : document)
    (tag attr value q1 q2 : string) :
  contains "[" tag = false ->
  contains "=" attr = false ->
  all_chars is_quote q1 = true ->
  all_chars is_quote q2 = true ->
  strip is_quote value = value ->
  attribute_filter d (tag +:+ "[" +:+ attr +:+ "=" +:+ q1 +:+ value +:+ q2 +:+ "]") =
  Some (0 <? Z.of_nat (length (soup_find_all d tag (Some (attr, value))))).
Proof.
  intros Htag Hattr Hq1 Hq2 Hv. unfold attribute_filter.
  change ("[" +:+ ?x) with (String "[" x).
  rewrite (split_once_first "[" tag _ Htag).
  replace (attr +:+ "=" +:+ q1 +:+ value +:+ q2 +:+ "]")
    with ((attr +:+ "=" +:+ q1 +:+ value +:+ q2) +:+ String "]" EmptyString)
    by (by rewrite !append_assoc).
  rewrite drop_last_snoc.
  change ("=" +:+ ?x) with (String "=" x).
  rewrite (split_once_first "=" attr _ Hattr).
  by rewrite (strip_quoted is_quote q1 value q2 Hq1 Hq2 Hv).
Qed.

(** C1.  On a parsed document, a query [tag[attr='value']] (the quotes
    optional, of either kind) is answered by the attribute filter alone:
    the validator returns true iff some element named [tag], anywhere in
    the tree, carries [attr] with exactly the value [value], whatever the
    selector engine would say.  For any query with brackets, the later
    steps are reached iff the text between the first opening bracket and
    the last character holds no equals sign. *)
Theorem validate_xpath_like_attribute_filter (env : environment) (d : document)
    (tag attr value q1 q2 : string) :
  contains "[" tag = false ->
  contains "=" attr = false ->
  all_chars is_quote q1 = true ->
  all_chars is_quote q2 = true ->
  strip is_quote value = value ->
  let expr := tag +:+ "[" +:+ attr +:+ "=" +:+ q1 +:+ value +:+ q2 +:+ "]" in
  fst (validate_xpath_like_step env (Some d) expr) = AttributeFilter
  /\ (validate_xpath_like env (Some d) expr = true <->
      exists e, occurs_in_document e d /\ el_name e = tag
                /\ el_attrs e !! attr = Some value)
  /\ (forall other,
        contains "[" other && contains "]" other = true ->
        exists tag' part,
          split_once "[" other = Some (tag', part)
          /\ (fst (validate_xpath_like_step env (Some d) other) <> AttributeFilter
              <-> contains "=" (drop_last part) = false)).
Proof.
  intros Htag Hattr Hq1 Hq2 Hv expr.
  assert (Hb : contains "[" expr && contains "]" expr = true).
  { unfold expr. rewrite !contains_append. simpl.
    rewrite !orb_true_r. done. }
  assert (Hstep : validate_xpath_like_step env (Some d) expr =
    (AttributeFilter, 0 <? Z.of_nat (length (soup_find_all d tag (Some (attr, value)))))).
  { unfold validate_xpath_like_step. rewrite Hb. unfold expr.
    by rewrite (attribute_filter_well_formed env d tag attr value q1 q2). }
  split; [by rewrite Hstep|]. split.
  - unfold validate_xpath_like. rewrite Hstep. apply find_all_nonempty.
  - intros other Hother.
    apply andb_true_iff in Hother as Hboth. destruct Hboth as [Hopen _].
    apply split_once_contains in Hopen as (tag' & part & Hsplit).
    exists tag', part. split; [done|].
    unfold validate_xpath_like_step, attribute_filter. rewrite Hother, Hsplit.
    destruct (split_once "=" (drop_last part)) as [[an av]|] eqn:E.
    + assert (contains "=" (drop_last part) = true) as ->
        by (apply split_once_contains; by eexists _, _).
      simpl. split; done.
    + apply split_once_none in E. rewrite E.
      split; [done|]. intros _.
      by destruct (soup_select env d _).
Qed.

Lemma validate_xpath_like_attribute_filter_witness :
  validate_xpath_like demo_env (Some demo_document) "item[id='i1']" = true
  /\ validate_xpath_like demo_env (Some demo_document) "item[id=i9]" = false.
Proof.
  split.
  - apply (validate_xpath_like_attribute_filter demo_env demo_document
             "item" "id" "i1" "'" "'"); [reflexivity..|].
    exists (Element "item" {[ "id" := "i1" ]} [] "Laptop"). split; [|done].
    eexists. split; [by left|].
    eapply occurs_below; [|apply occurs_here]. simpl. by left.
  - apply not_true_is_false. intros H.
    apply (validate_xpath_like_attribute_filter demo_env demo_document
             "item" "id" "i9" EmptyString EmptyString) in H; [|reflexivity..].
    apply (find_all_nonempty demo_document "item" "id" "i9") in H.
    vm_compute in H. discriminate H.
Defined.

(** ** The request dispatcher *)


(** ** The statistics collector *)

Lemma count_status_snoc (status : string) (l : list test_result) (r : test_result) :
  count_status status (l ++ [r]) =
  count_status status l + (if String.eqb (tr_status r) status then 1 else 0).
Proof.
  unfold count_status. rewrite List.filter_app, length_app. simpl.
  destruct (String.eqb (tr_status r) status); simpl; lia.
Qed.

Lemma known_status_cases (status : string) :
  known_status status = true ->
  status = "PASS" \/ status = "FAIL" \/ status = "SKIP" \/ status = "ERROR".
Proof.
  unfold known_status. rewrite !orb_true_iff, !String.eqb_eq. tauto.
Qed.

Lemma record_test_result_invariant (now : string) (s : stats)
    (test_name status : string) (response_time_ms : option Z)
    (det : option details) (error_message : option string) :
  known_status status = true ->
  total_tests s = passed_tests s + failed_tests s + skipped_tests s ->
  counters_agree s ->
  let s' := record_test_result now s test_name status response_time_ms det
              error_message in
  total_tests s' = passed_tests s' + failed_tests s' + skipped_tests s'
  /\ counters_agree s'.
Proof.
  intros Hk Hsum (Ht & Hp & Hf & Hs) s'. subst s'.
  unfold counters_agree, record_test_result.
  apply known_status_cases in Hk as [-> | [-> | [-> | ->]]];
    cbn -[count_status Z.add Z.of_nat];
    rewrite !count_status_snoc, length_app; cbn -[count_status Z.add Z.of_nat];
    repeat split; lia.
Qed.

Lemma record_all_invariant (rs : list recording) (s : stats) :
  Forall (fun r => known_status (rec_status r) = true) rs ->
  total_tests s = passed_tests s + failed_tests s + skipped_tests s ->
  counters_agree s ->
  total_tests (record_all rs s) =
    passed_tests (record_all rs s) + failed_tests (record_all rs s)
    + skipped_tests (record_all rs s)
  /\ counters_agree (record_all rs s)
  /\ tr_status <$> test_results (record_all rs s) =
     (tr_status <$> test_results s) ++ (rec_status <$> rs).
Proof.
  intros Hrs. revert s. induction Hrs as [|r rs Hr _ IH]; intros s Hsum Hagree.
  - simpl. by rewrite app_nil_r.
  - simpl.
    destruct (record_test_result_invariant (rec_now r) s (rec_test_name r)
                (rec_status r) (rec_response_time_ms r) (rec_details r)
                (rec_error_message r) Hr Hsum Hagree) as [Hsum' Hagree'].
    destruct (IH (record_one s r) Hsum' Hagree') as (H1 & H2 & H3).
    split; [done|]. split; [done|].
    rewrite H3. unfold record_one at 1, record_test_result.
    destruct (tally _ _) as [[? ?] ?]. simpl.
    by rewrite fmap_app, <- app_assoc.
Qed.

(** C8.  Starting from a fresh collector, after any sequence of recorded
    results with status PASS, FAIL, SKIP or ERROR the counters satisfy
    [total = passed + failed + skipped], and they agree with the recorded
    sequence: [total] is its length, [passed] and [skipped] count its
    PASS and SKIP entries, [failed] counts its FAIL and its ERROR
    entries; the sequence holds the recorded statuses in order. *)
Theorem record_test_result_counters (rs : list recording) :
  Forall (fun r => known_status (rec_status r) = true) rs ->
  let s := record_all rs initial_stats in
  total_tests s = passed_tests s + failed_tests s + skipped_tests s
  /\ total_tests s = Z.of_nat (length (test_results s))
  /\ passed_tests s = count_status "PASS" (test_results s)
  /\ failed_tests s =
     count_status "FAIL" (test_results s) + count_status "ERROR" (test_results s)
  /\ skipped_tests s = count_status "SKIP" (test_results s)
  /\ tr_status <$> test_results s = rec_status <$> rs.
Proof.
  intros Hrs s.
  destruct (record_all_invariant rs initial_stats Hrs) as (H1 & H2 & H3);
    [done | by repeat split |].
  destruct H2 as (? & ? & ? & ?). by repeat split.
Qed.

Lemma record_test_result_counters_witness :
  total_tests (record_all demo_recordings initial_stats) = 3
  /\ failed_tests (record_all demo_recordings initial_stats) = 1
  /\ total_tests (record_all demo_recordings initial_stats) =
     passed_tests (record_all demo_recordings initial_stats)
     + failed_tests (record_all demo_recordings initial_stats)
     + skipped_tests (record_all demo_recordings initial_stats).
Proof.
  destruct (record_test_result_counters demo_recordings) as (Hsum & _).
  - repeat constructor.
  - split; [reflexivity|]. split; [reflexivity|]. exact Hsum.
Defined.

(** ** The runner *)

Lemma merged_params_union (override_params : option (gmap string pyval))
    (tc : test_case) :
  merged_params override_params tc =
  default ∅ override_params ∪ default ∅ (tc_params tc).
Proof.
  unfold merged_params, truthy_dict.
  destruct override_params as [m|]; simpl.
  - case_bool_decide as Hm; simpl; [|done]. subst m. by rewrite (left_id_L ∅ (∪)).
  - by rewrite (left_id_L ∅ (∪)).
Qed.

Lemma send_request_case (env : environment) (client : HTTPClient)
    (override_params : option (gmap string pyval)) (tc : test_case)
    (path : string) (k : nat) :
  send_request env client k (upper (default "GET" (tc_method tc)))
    (re_sub_placeholders (merged_params override_params tc) path)
    ((fun v => _substitute_variables v (merged_params override_params tc))
       <$> default ∅ (tc_headers tc))
    (_substitute_variables (tc_body tc) (merged_params override_params tc))
    (merged_params override_params tc) =
  normalize_outcome
    (requests_request env k (case_request client override_params tc path))
    (elapsed_ms env k).
Proof. reflexivity. Qed.

(** Whatever becomes of a dispatched case, its request is on record. *)
Lemma run_case_sent (env : environment) (client : HTTPClient)
    (names : option (list string)) (override_params : option (gmap string pyval))
    (i : nat) (tc : test_case) (st : state) (path : string) :
  not_in_run_list names tc = false ->
  tc_path tc = Some path -> path <> EmptyString ->
  sent (outcome_state (run_case env client names override_params i tc st)) =
  sent st ++ [case_request client override_params tc path].
Proof.
  intros Hsel Hpath Hne. unfold run_case. rewrite Hsel, Hpath.
  destruct path as [|c p]; [done|].
  destruct (evaluate_response _ _ _) as [[[status vr] msg]|e]; done.
Qed.



Lemma run_case_skipped (env : environment) (client : HTTPClient)
    (names : option (list string)) (override_params : option (gmap string pyval))
    (i : nat) (tc : test_case) (st : state) :
  not_in_run_list names tc = true ->
  run_case env client names override_params i tc st =
  Finished
    {| tests_config := tests_config st;
       collector :=
         record_test_result
           (now_isoformat env (length (test_results (collector st))))
           (collector st) (test_name_of tc) "SKIP" None None
           (Some "Test not in run list.");
       sent := sent st |}.
Proof. intros H. unfold run_case. by rewrite H. Qed.

Lemma not_in_run_list_spec (names : list string) (tc : test_case) :
  names <> [] ->
  not_in_run_list (Some names) tc = negb (bool_decide (test_name_of tc ∈ names)).
Proof. intros H. unfold not_in_run_list. by destruct names. Qed.

(** C9, amended.  With a non-empty inclusion list, a case whose name is
    not in the list is recorded as SKIP with the message "Test not in run
    list." and nothing else happens: no request is sent and the
    configuration is untouched.  A case whose name is in the list is
    processed as in a run without inclusion list. *)
Theorem inclusion_list_skips (env : environment) (client : HTTPClient)
    (names : list string) (override_params : option (gmap string pyval))
    (i : nat) (tc : test_case) (st : state) :
  names <> [] ->
  (test_name_of tc ∉ names ->
   run_case env client (Some names) override_params i tc st =
   Finished
     {| tests_config := tests_config st;
        collector :=
          record_test_result
            (now_isoformat env (length (test_results (collector st))))
            (collector st) (test_name_of tc) "SKIP" None None
            (Some "Test not in run list.");
        sent := sent st |})
  /\ (test_name_of tc ∈ names ->
      run_case env client (Some names) override_params i tc st =
      run_case env client None override_params i tc st).
Proof.
  intros Hne. split; intros Hin.
  - apply run_case_skipped. rewrite (not_in_run_list_spec _ _ Hne).
    by rewrite bool_decide_eq_false_2.
  - unfold run_case. rewrite (not_in_run_list_spec _ _ Hne).
    by rewrite bool_decide_eq_true_2.
Qed.

Lemma inclusion_list_skips_witness :
  sent (outcome_state
          (run_case demo_env demo_client (Some ["A"]) None 1
             (simple_case "B" "/b")
             (initial_state [simple_case "A" "/a"; simple_case "B" "/b"]))) = []
  /\ tr_status <$>
       last_result
         (run_case demo_env demo_client (Some ["A"]) None 1
            (simple_case "B" "/b")
            (initial_state [simple_case "A" "/a"; simple_case "B" "/b"])) =
     Some "SKIP"
  /\ run_case demo_env demo_client (Some ["A"]) None 0
       (simple_case "A" "/a")
       (initial_state [simple_case "A" "/a"; simple_case "B" "/b"]) =
     run_case demo_env demo_client None None 0
       (simple_case "A" "/a")
       (initial_state [simple_case "A" "/a"; simple_case "B" "/b"]).
Proof.
  destruct (inclusion_list_skips demo_env demo_client ["A"] None 1
              (simple_case "B" "/b")
              (initial_state [simple_case "A" "/a"; simple_case "B" "/b"]))
    as [Hskip _]; [discriminate|].
  destruct (inclusion_list_skips demo_env demo_client ["A"] None 0
              (simple_case "A" "/a")
              (initial_state [simple_case "A" "/a"; simple_case "B" "/b"]))
    as [_ Hrun]; [discriminate|].
  unfold last_result. rewrite Hskip.
  - split; [reflexivity|]. split; [reflexivity|].
    apply Hrun. simpl. apply list_elem_of_here.
  - simpl. intros H. apply list_elem_of_singleton in H. discriminate H.
Defined.

(** An inclusion list that was supplied but is empty skips nothing: the
    case [B], absent from it, is dispatched and passes. *)
Lemma empty_inclusion_list_skips_nothing :
  (test_name_of (simple_case "B" "/b") ∉ ([] : list string))
  /\ tr_status <$>
       last_result
         (run_case demo_env demo_client (Some []) None 0 (simple_case "B" "/b")
            (initial_state [simple_case "B" "/b"])) =
     Some "PASS"
  /\ req_url <$>
       sent (outcome_state
               (run_case demo_env demo_client (Some []) None 0
                  (simple_case "B" "/b")
                  (initial_state [simple_case "B" "/b"]))) =
     ["http://host/b"].
Proof.
  split; [apply not_elem_of_nil|]. split; vm_compute; reflexivity.
Qed.

Lemma run_case_responded (env : environment) (client : HTTPClient)
    (names : option (list string)) (override_params : option (gmap string pyval))
    (i : nat) (tc : test_case) (st : state) (path : string) (resp : http_response) :
  not_in_run_list names tc = false ->
  tc_path tc = Some path -> path <> EmptyString ->
  requests_request env (length (sent st))
    (case_request client override_params tc path) = Responded resp ->
  forall status vr msg,
  evaluate_response env tc
    (normalize_outcome (Responded resp) (elapsed_ms env (length (sent st)))) =
    Returned (status, vr, msg) ->
  exists st',
    run_case env client names override_params i tc st = Finished st'
    /\ test_results (collector st') =
       test_results (collector st) ++
       [ {| tr_test_name := test_name_of tc;
            tr_status := status;
            tr_timestamp := now_isoformat env (length (test_results (collector st)));
            tr_response_time_ms := Some (elapsed_ms env (length (sent st)));
            tr_details :=
              Some {| d_status_code := Some (resp_status_code resp);
                      d_response_time_ms := elapsed_ms env (length (sent st));
                      d_response_success := true;
                      d_validation_results := vr |};
            tr_error_message := msg |} ].
Proof.
  intros Hsel Hpath Hne Hresp status vr msg Heval.
  unfold run_case. rewrite Hsel, Hpath.
  destruct path as [|c p]; [done|].
  rewrite send_request_case, Hresp, Heval.
  eexists. split; [reflexivity|].
  unfold record, record_test_result. simpl.
  by destruct (tally status (collector st)) as [[? ?] ?].
Qed.

(** C7, amended.  For a dispatched case that declares a non-zero expected
    status: if the server answers with another status code, the recorded
    result is FAIL, its message is "Expected status E, got A" with the
    expected and the actual code, and the details hold no validation
    result: neither parsing nor a validation was attempted. *)
Theorem status_mismatch_fails (env : environment) (client : HTTPClient)
    (names : option (list string)) (override_params : option (gmap string pyval))
    (i : nat) (tc : test_case) (st : state) (path : string) (e : Z)
    (resp : http_response) :
  not_in_run_list names tc = false ->
  tc_path tc = Some path -> path <> EmptyString ->
  tc_expected_status tc = Some e -> e <> 0 ->
  requests_request env (length (sent st))
    (case_request client override_params tc path) = Responded resp ->
  resp_status_code resp <> e ->
  exists st',
    run_case env client names override_params i tc st = Finished st'
    /\ test_results (collector st') =
       test_results (collector st) ++
       [ {| tr_test_name := test_name_of tc;
            tr_status := "FAIL";
            tr_timestamp := now_isoformat env (length (test_results (collector st)));
            tr_response_time_ms := Some (elapsed_ms env (length (sent st)));
            tr_details :=
              Some {| d_status_code := Some (resp_status_code resp);
                      d_response_time_ms := elapsed_ms env (length (sent st));
                      d_response_success := true;
                      d_validation_results :=
                        {| xml_parseable := None; xpath_validation := None;
                           regex_validation := None |} |};
            tr_error_message :=
              Some ("Expected status " +:+ Z_to_string e +:+ ", got "
                    +:+ Z_to_string (resp_status_code resp)) |} ].
Proof.
  intros Hsel Hpath Hne Hexp He Hresp Hcode.
  apply (run_case_responded env client names override_params i tc st path resp);
    try done.
  unfold evaluate_response. rewrite Hexp. simpl.
  apply Z.eqb_neq in He. rewrite He. simpl.
  rewrite bool_decide_eq_false_2; [done|]. congruence.
Qed.

Lemma status_mismatch_fails_witness :
  (fun r => (tr_status r, tr_error_message r)) <$>
    last_result
      (run_case demo_env demo_client None None 0 created_case
         (initial_state [created_case])) =
  Some ("FAIL", Some "Expected status 201, got 400").
Proof.
  destruct (status_mismatch_fails demo_env demo_client None None 0 created_case
              (initial_state [created_case]) "/bad" 201
              {| resp_status_code := 400; resp_headers := ∅;
                 resp_text := "<error/>" |})
    as (st' & Hrun & Hres);
    [reflexivity | reflexivity | discriminate | reflexivity | discriminate
    | reflexivity | discriminate | ].
  unfold last_result. rewrite Hrun. simpl. rewrite Hres.
  rewrite last_snoc. reflexivity.
Defined.

(** A declared expected status of 0 is not checked: the answer 200
    differs from it and the case passes. *)
Lemma zero_expected_status_not_checked :
  tc_expected_status zero_status_case = Some 0
  /\ requests_request demo_env 0
       (case_request demo_client None zero_status_case "/b") =
     Responded {| resp_status_code := 200; resp_headers := ∅;
                  resp_text := demo_body |}
  /\ (fun r => (tr_status r, tr_error_message r)) <$>
       last_result
         (run_case demo_env demo_client None None 0 zero_status_case
            (initial_state [zero_status_case])) =
     Some ("PASS", None).
Proof.
  split; [reflexivity|]. split; vm_compute; reflexivity.
Qed.

Lemma validate_response_both (env : environment) (response : response_dict)
    (q r : string) (rb : bool) :
  (XMLParser env (rd_content response) = None ->
   rd_content response = EmptyString) ->
  q <> EmptyString -> r <> EmptyString ->
  validate_content_regex env (XMLParser env (rd_content response)) r = Returned rb ->
  validate_response env response (Some q) (Some r) =
  Returned
    ({| xml_parseable := Some true;
        xpath_validation :=
          Some (validate_xpath_like env (XMLParser env (rd_content response)) q);
        regex_validation := Some rb |},
     join_reasons
       ((if validate_xpath_like env (XMLParser env (rd_content response)) q
         then [] else ["XPath validation failed for '" +:+ q +:+ "'"])
        ++ (if rb then [] else ["Regex validation failed for '" +:+ r +:+ "'"])),
     validate_xpath_like env (XMLParser env (rd_content response)) q && rb).
Proof.
  intros Hparsed Hq Hr Hregex. unfold validate_response.
  destruct q as [|cq q']; [done|]. destruct r as [|cr r']; [done|].
  set (q := String cq q') in *. set (r := String cr r') in *.
  assert (Hbranch : forall A (x y : A),
    match XMLParser env (rd_content response), rd_content response with
    | None, String _ _ => x
    | _, _ => y
    end = y).
  { intros A x y. destruct (XMLParser env (rd_content response)) eqn:E; [done|].
    by rewrite (Hparsed eq_refl). }
  rewrite Hbranch. rewrite Hregex.
  destruct (validate_xpath_like env _ q), rb; simpl; try done.
  unfold add_reason, truthy_str. simpl. by rewrite append_assoc.
Qed.

(** C2, amended.  For a dispatched case that reaches the validation phase
    (a response was received, the status check did not fail, the body
    parsed or was empty) and declares a non-empty structural query and a
    non-empty regex pattern on which the regex search returns: both
    checks are evaluated and both booleans are recorded in the details,
    also when the structural check has failed; the status is PASS iff
    both are true, else FAIL, and the error message joins the reasons of
    the failed checks, structural first, with "; ". *)
Theorem both_validations_recorded (env : environment) (client : HTTPClient)
    (names : option (list string)) (override_params : option (gmap string pyval))
    (i : nat) (tc : test_case) (st : state) (path q r : string)
    (resp : http_response) (rb : bool) :
  not_in_run_list names tc = false ->
  tc_path tc = Some path -> path <> EmptyString ->
  tc_validation_xpath tc = Some q -> q <> EmptyString ->
  tc_validation_regex tc = Some r -> r <> EmptyString ->
  requests_request env (length (sent st))
    (case_request client override_params tc path) = Responded resp ->
  (truthy_int (tc_expected_status tc) = true ->
   tc_expected_status tc = Some (resp_status_code resp)) ->
  (XMLParser env (resp_text resp) = None -> resp_text resp = EmptyString) ->
  validate_content_regex env (XMLParser env (resp_text resp)) r = Returned rb ->
  exists st',
    run_case env client names override_params i tc st = Finished st'
    /\ test_results (collector st') =
       test_results (collector st) ++
       [ {| tr_test_name := test_name_of tc;
            tr_status :=
              if validate_xpath_like env (XMLParser env (resp_text resp)) q && rb
              then "PASS" else "FAIL";
            tr_timestamp := now_isoformat env (length (test_results (collector st)));
            tr_response_time_ms := Some (elapsed_ms env (length (sent st)));
            tr_details :=
              Some {| d_status_code := Some (resp_status_code resp);
                      d_response_time_ms := elapsed_ms env (length (sent st));
                      d_response_success := true;
                      d_validation_results :=
                        {| xml_parseable := Some true;
                           xpath_validation :=
                             Some (validate_xpath_like env
                                     (XMLParser env (resp_text resp)) q);
                           regex_validation := Some rb |} |};
            tr_error_message :=
              join_reasons
                ((if validate_xpath_like env (XMLParser env (resp_text resp)) q
                  then [] else ["XPath validation failed for '" +:+ q +:+ "'"])
                 ++ (if rb then []
                     else ["Regex validation failed for '" +:+ r +:+ "'"])) |} ].
Proof.
  intros Hsel Hpath Hne Hq Hqne Hr Hrne Hresp Hstatus Hparsed Hregex.
  apply (run_case_responded env client names override_params i tc st path resp);
    try done.
  unfold evaluate_response. simpl.
  assert (Hcheck :
    truthy_int (tc_expected_status tc)
    && negb (bool_decide (Some (resp_status_code resp) = tc_expected_status tc))
    = false).
  { destruct (truthy_int (tc_expected_status tc)); [|done].
    rewrite (Hstatus eq_refl). simpl. by rewrite bool_decide_eq_true_2. }
  rewrite Hcheck, Hq, Hr.
  rewrite (validate_response_both env _ q r rb); try done.
  apply andb_false_iff in Hcheck as Hcases.
  assert (Hok :
    negb (truthy_int (tc_expected_status tc))
    || bool_decide (Some (resp_status_code resp) = tc_expected_status tc) = true).
  { destruct Hcases as [-> | H]; [done|].
    apply negb_false_iff in H. rewrite H. by rewrite orb_true_r. }
  rewrite Hok, !andb_true_r.
  by destruct (validate_xpath_like env _ q && rb).
Qed.

Lemma both_validations_recorded_witness :
  (fun res =>
     (tr_status res, d_validation_results <$> tr_details res, tr_error_message res))
    <$> last_result
          (run_case demo_env demo_client None None 0 both_fail_case
             (initial_state [both_fail_case])) =
  Some ("FAIL",
        Some {| xml_parseable := Some true; xpath_validation := Some false;
                regex_validation := Some false |},
        Some "XPath validation failed for 'item[id='i9']'; Regex validation failed for 'Keyboard'").
Proof.
  destruct (both_validations_recorded demo_env demo_client None None 0
              both_fail_case (initial_state [both_fail_case])
              "/d" "item[id='i9']" "Keyboard"
              {| resp_status_code := 200; resp_headers := ∅;
                 resp_text := demo_body |} false)
    as (st' & Hrun & Hres);
    [reflexivity | reflexivity | discriminate | reflexivity | discriminate
    | reflexivity | discriminate | reflexivity | reflexivity | discriminate
    | reflexivity | ].
  unfold last_result. rewrite Hrun. simpl. rewrite Hres.
  rewrite last_snoc. reflexivity.
Defined.

(** A declared but empty regex pattern is not evaluated: the details hold
    the structural boolean only. *)
Lemma empty_regex_not_recorded :
  tc_validation_xpath empty_regex_case = Some "item"
  /\ tc_validation_regex empty_regex_case = Some EmptyString
  /\ (fun res => (tr_status res, d_validation_results <$> tr_details res))
       <$> last_result
             (run_case demo_env demo_client None None 0 empty_regex_case
                (initial_state [empty_regex_case])) =
     Some ("PASS",
           Some {| xml_parseable := Some true; xpath_validation := Some true;
                   regex_validation := None |}).
Proof.
  split; [reflexivity|]. split; [reflexivity|]. vm_compute. reflexivity.
Qed.

(** ** The loop *)

Lemma run_case_config (env : environment) (client : HTTPClient)
    (names : option (list string)) (override_params : option (gmap string pyval))
    (i : nat) (tc : test_case) (st : state) (path : string) :
  not_in_run_list names tc = false ->
  tc_path tc = Some path -> path <> EmptyString ->
  tests_config (outcome_state (run_case env client names override_params i tc st)) =
  match tc_params tc with
  | Some _ =>
      if truthy_dict override_params
      then <[i := set_params tc (merged_params override_params tc)]> (tests_config st)
      else tests_config st
  | None => tests_config st
  end.
Proof.
  intros Hsel Hpath Hne. unfold run_case. rewrite Hsel, Hpath.
  destruct path as [|c p]; [done|].
  destruct (evaluate_response _ _ _) as [[[status vr] msg]|e]; done.
Qed.

Lemma validate_content_regex_raises (env : environment) (soup : option document)
    (r : string) (e : py_exception) :
  validate_content_regex env soup r = Raised e ->
  e = re_error r
  /\ exists d, soup = Some d
               /\ re_search_dotall env r (soup_prettify env d) = None.
Proof.
  unfold validate_content_regex. destruct soup as [d|]; [|done].
  destruct (soup_prettify env d) as [|c p] eqn:Ep; [done|].
  destruct (re_search_dotall env r (String c p)) as [b|] eqn:E; [done|].
  intros H. inversion H. split; [done|]. exists d. by rewrite Ep.
Qed.

(** The only way out of the loop is a regex pattern of the case that the
    regex engine rejects. *)
Lemma run_case_aborted (env : environment) (client : HTTPClient)
    (names : option (list string)) (override_params : option (gmap string pyval))
    (i : nat) (tc : test_case) (st st' : state) (e : py_exception) :
  run_case env client names override_params i tc st = Aborted e st' ->
  exists r d,
    tc_validation_regex tc = Some r /\ e = re_error r
    /\ re_search_dotall env r (soup_prettify env d) = None.
Proof.
  unfold run_case. destruct (not_in_run_list names tc); [done|].
  destruct (tc_path tc) as [[|c p]|]; try done.
  destruct (evaluate_response _ _ _) as [[[status vr] msg]|e'] eqn:E; [done|].
  intros H. inversion H; subst. clear H. revert E.
  unfold evaluate_response.
  destruct (negb _); [done|]. destruct (_ && _); [done|].
  destruct (validate_response _ _ _ _) as [[[vr msg] pass]|e'] eqn:V;
    [by destruct (_ && _)|].
  intros H. inversion H; subst. clear H. revert V.
  unfold validate_response.
  set (soup := XMLParser env _).
  set (xp := match tc_validation_xpath tc with Some (String _ _ as q) => _ | _ => _ end).
  destruct xp as [[xr em] pass].
  destruct soup as [d|] eqn:Es.
  - destruct (tc_validation_regex tc) as [[|cr r]|]; try done.
    destruct (validate_content_regex env (Some d) (String cr r)) as [b|e'] eqn:R;
      [by destruct b|].
    intros H. inversion H; subst.
    apply validate_content_regex_raises in R as (-> & d' & _ & Hd').
    by exists (String cr r), d'.
  - destruct (rd_content _); [|done].
    destruct (tc_validation_regex tc) as [[|cr r]|]; try done.
Qed.

Lemma run_case_finished (env : environment) (client : HTTPClient)
    (names : option (list string)) (override_params : option (gmap string pyval))
    (i : nat) (tc : test_case) (st st' : state) :
  run_case env client names override_params i tc st = Finished st' ->
  exists res,
    test_results (collector st') = test_results (collector st) ++ [res]
    /\ tr_test_name res = test_name_of tc.
Proof.
  assert (Hrec : forall st0 status rt det msg,
    exists res,
      test_results (collector (record env st0 (test_name_of tc) status rt det msg)) =
        test_results (collector st0) ++ [res]
      /\ tr_test_name res = test_name_of tc).
  { intros. unfold record, record_test_result. simpl.
    destruct (tally _ _) as [[? ?] ?]. simpl. by eexists. }
  unfold run_case. destruct (not_in_run_list names tc).
  { intros H. inversion H. apply Hrec. }
  destruct (tc_path tc) as [[|c p]|];
    try (intros H; inversion H; apply Hrec).
  destruct (evaluate_response _ _ _) as [[[status vr] msg]|e']; [|done].
  intros H. inversion H.
  match goal with
  | |- context [record env ?s _ _ _ _ _] => destruct (Hrec s status
        (Some (rd_response_time_ms
           (send_request env client (length (sent st))
              (upper (default "GET" (tc_method tc)))
              (re_sub_placeholders (merged_params override_params tc) (String c p))
              ((fun v => _substitute_variables v (merged_params override_params tc))
                 <$> default ∅ (tc_headers tc))
              (_substitute_variables (tc_body tc) (merged_params override_params tc))
              (merged_params override_params tc)))) None msg) as (res & Hres & Hname)
  end.
  unfold record, record_test_result in *. simpl in *.
  destruct (tally _ _) as [[? ?] ?]. simpl in *. by eexists.
Qed.

(** A run that comes to its end has recorded one result per definition,
    in the order of the definitions. *)
Lemma run_loop_finished (env : environment) (client : HTTPClient)
    (names : option (list string)) (override_params : option (gmap string pyval))
    (cases : list test_case) (i : nat) (st st' : state) :
  run_loop env client names override_params i cases st = Finished st' ->
  tr_test_name <$> test_results (collector st') =
  (tr_test_name <$> test_results (collector st)) ++ (test_name_of <$> cases).
Proof.
  revert i st. induction cases as [|tc cases IH]; intros i st H; simpl in H.
  - inversion H. by rewrite app_nil_r.
  - destruct (run_case env client names override_params i tc st) as [st1|e st1] eqn:E;
      [|done].
    apply run_case_finished in E as (res & Hres & Hname).
    rewrite (IH _ _ H), Hres, fmap_app. simpl. rewrite Hname.
    by rewrite <- app_assoc.
Qed.

(** It comes to its end when the regex engine accepts every pattern. *)
Lemma run_loop_finishes (env : environment) (client : HTTPClient)
    (names : option (list string)) (override_params : option (gmap string pyval))
    (cases : list test_case) (i : nat) (st : state) :
  (forall p t, re_search_dotall env p t <> None) ->
  exists st', run_loop env client names override_params i cases st = Finished st'.
Proof.
  intros Hre. revert i st. induction cases as [|tc cases IH]; intros i st; simpl.
  - by eexists.
  - destruct (run_case env client names override_params i tc st) as [st1|e st1] eqn:E.
    + apply IH.
    + apply run_case_aborted in E as (r & d & _ & _ & Hnone).
      by destruct (Hre r (soup_prettify env d)).
Qed.

(** C3.  A regex pattern that the regex engine rejects ends the run:
    [re.error] leaves [validate_content_regex], nothing in [run_tests]
    catches it, and neither the case that declares the pattern nor the
    case after it gets a result. *)
Theorem regex_error_aborts_run (env : environment) (client : HTTPClient)
    (resp : http_response) (d : document) :
  requests_request env 0
    (case_request client None unbalanced_regex_case "/a") = Responded resp ->
  resp_text resp <> EmptyString ->
  BeautifulSoup env (resp_text resp) = Some d ->
  soup_prettify env d <> EmptyString ->
  re_search_dotall env "(" (soup_prettify env d) = None ->
  exists st',
    run_tests env client None None
      (initial_state [unbalanced_regex_case; simple_case "B" "/b"]) =
    Aborted (re_error "(") st'
    /\ test_results (collector st') = [].
Proof.
  intros Hresp Htext Hsoup Hpretty Hre.
  unfold run_tests, initial_state. cbn [tests_config run_loop].
  unfold run_case.
  change (not_in_run_list None unbalanced_regex_case) with false.
  cbn [tc_path unbalanced_regex_case].
  rewrite send_request_case. cbn [sent length]. rewrite Hresp.
  unfold evaluate_response, validate_response. simpl.
  unfold XMLParser.
  destruct (resp_text resp) as [|c t] eqn:Et; [done|].
  rewrite Hsoup. unfold validate_content_regex.
  destruct (soup_prettify env d) as [|c' p] eqn:Ep; [done|].
  rewrite Hre. by eexists.
Qed.

Lemma regex_error_aborts_run_witness :
  test_results
    (collector
       (outcome_state
          (run_tests demo_env demo_client None None
             (initial_state [unbalanced_regex_case; simple_case "B" "/b"])))) = []
  /\ exists st',
       run_tests demo_env demo_client None None
         (initial_state [unbalanced_regex_case; simple_case "B" "/b"]) =
       Aborted (re_error "(") st'.
Proof.
  destruct (regex_error_aborts_run demo_env demo_client
              {| resp_status_code := 200; resp_headers := ∅;
                 resp_text := demo_body |} demo_document)
    as (st' & Hrun & Hres);
    [reflexivity | discriminate | reflexivity | discriminate | reflexivity | ].
  rewrite Hrun. simpl. split; [exact Hres | by exists st'].
Defined.

(** C5.  Running [GetProductInfo] with the override [product_id = 2]
    writes the override into the case's stored default parameters: the
    configuration after the run differs from the one before it, and a
    later run without overrides over the same configuration requests
    [/products/2], where a run over the original configuration requests
    [/products/1]. *)
Theorem override_changes_stored_params (env : environment) (client : HTTPClient) :
  tc_params <$>
    tests_config
      (outcome_state
         (run_tests env client None (Some {[ "product_id" := VStr "2" ]})
            (initial_state [product_case]))) =
  [ Some {[ "product_id" := VStr "2" ]} ]
  /\ tc_params <$> [product_case] = [ Some {[ "product_id" := VStr "1" ]} ]
  /\ req_url <$>
       sent (outcome_state
               (run_tests env client None None (initial_state [product_case]))) =
     [ base_url client +:+ "/products/1" ]
  /\ req_url <$>
       sent (outcome_state
               (run_tests env client None None
                  (initial_state
                     (tests_config
                        (outcome_state
                           (run_tests env client None
                              (Some {[ "product_id" := VStr "2" ]})
                              (initial_state [product_case]))))))) =
     [ base_url client +:+ "/products/2" ].
Proof.
  assert (Hloop : forall ov tc st,
    outcome_state (run_loop env client None ov 0 [tc] st) =
    outcome_state (run_case env client None ov 0 tc st)).
  { intros. simpl. by destruct (run_case _ _ _ _ _ _ _). }
  assert (Hconfig :
    tests_config
      (outcome_state
         (run_tests env client None (Some {[ "product_id" := VStr "2" ]})
            (initial_state [product_case]))) =
    [ set_params product_case {[ "product_id" := VStr "2" ]} ]).
  { unfold run_tests. cbn [tests_config initial_state]. rewrite Hloop.
    by rewrite (run_case_config _ _ _ _ _ _ _ "/products/{product_id}"). }
  split; [by rewrite Hconfig|]. split; [done|]. split.
  - unfold run_tests. cbn [tests_config initial_state]. rewrite Hloop.
    by rewrite (run_case_sent _ _ _ _ _ _ _ "/products/{product_id}").
  - rewrite Hconfig. unfold run_tests. cbn [tests_config initial_state].
    rewrite Hloop.
    by rewrite (run_case_sent _ _ _ _ _ _ _ "/products/{product_id}").
Qed.

(** ** The scenarios of the specification, run on the concrete environment *)

Example scenario_pass :
  (fun res => (tr_status res, tr_error_message res)) <$>
    last_result
      (run_tests demo_env demo_client None None
         (initial_state
            [ {| tc_name := Some "GetOrder"; tc_method := None;
                 tc_path := Some "/order"; tc_expected_status := Some 200;
                 tc_body := VNone; tc_headers := None; tc_params := None;
                 tc_validation_xpath := Some "item";
                 tc_validation_regex := Some "Laptop" |} ])) =
  Some ("PASS", None).
Proof. vm_compute. reflexivity. Qed.

Example scenario_timeout :
  (fun res => (tr_status res, tr_error_message res, d_status_code <$> tr_details res))
    <$> last_result
          (run_tests demo_env demo_client None None
             (initial_state [simple_case "Slow" "/down"])) =
  Some ("FAIL", Some "HTTP Request failed: Timeout", Some None).
Proof. vm_compute. reflexivity. Qed.

Example scenario_unparseable :
  (fun res => (tr_status res, xml_parseable <$> (d_validation_results <$> tr_details res)))
    <$> last_result
          (run_tests demo_env demo_client None None
             (initial_state
                [ {| tc_name := Some "Bad"; tc_method := None;
                     tc_path := Some "/bad"; tc_expected_status := None;
                     tc_body := VNone; tc_headers := None; tc_params := None;
                     tc_validation_xpath := None;
                     tc_validation_regex := None |} ])) =
  Some ("FAIL", Some (Some false)).
Proof. vm_compute. reflexivity. Qed.

Example scenario_missing_path :
  tr_status <$>
    test_results
      (collector
         (outcome_state
            (run_tests demo_env demo_client None None
               (initial_state
                  [ {| tc_name := None; tc_method := None; tc_path := None;
                       tc_expected_status := None; tc_body := VNone;
                       tc_headers := None; tc_params := None;
                       tc_validation_xpath := None;
                       tc_validation_regex := None |};
                    simple_case "B" "/b" ])))) =
  [ "ERROR"; "PASS" ].
Proof. vm_compute. reflexivity. Qed.

(** ** More on substitution *)








Lemma re_sub_at_placeholder (variables : gmap string pyval)
    (pre key post : string) :
  no_placeholder pre = true ->
  is_identifier key = true ->
  re_sub_placeholders variables (pre +:+ "{" +:+ key +:+ "}" +:+ post) =
  pre +:+ replace_match variables key +:+ re_sub_placeholders variables post.
Proof.
  intros Hpre Hid.
  change ("{" +:+ key +:+ "}" +:+ post) with (String "{" (key +:+ "}" +:+ post)).
  rewrite (re_sub_prefix _ _ _ Hpre). f_equal.
  rewrite re_sub_placeholders_cons.
  change (String "{" (key +:+ "}" +:+ post)) with ("{" +:+ key +:+ "}" +:+ post).
  by rewrite (match_placeholder_hit _ _ Hid).
Qed.

(** X3.  An override wins in the resolved text: a placeholder whose
    identifier the run-level overrides define resolves to [str] of the
    override value, whatever default the test case declares for it. *)
Theorem override_wins_in_substitution (override_params : gmap string pyval)
    (tc : test_case) (pre key post : string) (v : pyval) :
  override_params !! key = Some v ->
  no_placeholder pre = true ->
  is_identifier key = true ->
  re_sub_placeholders (merged_params (Some override_params) tc)
    (pre +:+ "{" +:+ key +:+ "}" +:+ post) =
  pre +:+ py_str v
  +:+ re_sub_placeholders (merged_params (Some override_params) tc) post.
Proof.
  intros Hov Hpre Hid.
  rewrite (re_sub_at_placeholder _ pre key post Hpre Hid).
  unfold replace_match. rewrite merged_params_union. simpl.
  by rewrite (lookup_union_Some_l _ _ _ _ Hov).
Qed.

Lemma override_wins_in_substitution_witness :
  re_sub_placeholders
    (merged_params (Some {[ "product_id" := VStr "2" ]}) product_case)
    "/products/{product_id}" =
  "/products/2".
Proof.
  apply (override_wins_in_substitution {[ "product_id" := VStr "2" ]}
           product_case "/products/" "product_id" EmptyString (VStr "2"));
    reflexivity.
Defined.

(** ** More on the structural query validator *)

Lemma starts_with_length (old s rest : string) :
  starts_with old s = Some rest ->
  String.length s = (String.length old + String.length rest)%nat.
Proof.
  revert s. induction old as [|a old IH]; intros s H; simpl in H.
  - by inversion H.
  - destruct s as [|b s]; [done|]. destruct (Ascii.eqb a b); [|done].
    simpl. by rewrite (IH _ H).
Qed.

Lemma replace_fuel_enough (old new : string) (n m : nat) (s : string) :
  old <> EmptyString ->
  (String.length s <= n)%nat -> (String.length s <= m)%nat ->
  replace_fuel n old new s = replace_fuel m old new s.
Proof.
  intros Hold. revert m s. induction n as [|n IH]; intros m s Hn Hm.
  - destruct s; [|simpl in Hn; lia]. destruct m; [done|].
    simpl. destruct old; [done|]. done.
  - destruct m as [|m].
    + destruct s; [|simpl in Hm; lia]. simpl. destruct old; [done|]. done.
    + simpl. destruct (starts_with old s) as [rest|] eqn:E.
      * destruct s as [|c s]; [done|].
        apply starts_with_length in E. destruct old; [done|].
        simpl in *. f_equal. apply IH; lia.
      * destruct s as [|c s]; [done|]. simpl in *. f_equal. apply IH; lia.
Qed.

Lemma replace_nil (old new : string) : replace old new EmptyString = EmptyString.
Proof. reflexivity. Qed.

Lemma replace_cons (old new : string) (c : ascii) (s : string) :
  old <> EmptyString ->
  replace old new (String c s) =
  match starts_with old (String c s) with
  | Some rest => new +:+ replace old new rest
  | None => String c (replace old new s)
  end.
Proof.
  intros Hold. unfold replace. simpl String.length. cbn [replace_fuel].
  destruct (starts_with old (String c s)) as [rest|] eqn:E; [|done].
  f_equal. apply starts_with_length in E. destruct old; [done|].
  simpl in E. apply replace_fuel_enough; [done|lia|lia].
Qed.

(** Text without the first character of [old] holds no occurrence of it. *)
Lemma replace_prefix (a : ascii) (old' new p x : string) :
  contains a p = false ->
  replace (String a old') new (p +:+ x) = p +:+ replace (String a old') new x.
Proof.
  induction p as [|c p IH]; intros Hp; [done|].
  simpl in Hp. apply orb_false_iff in Hp as [Hc Hp].
  rewrite !append_cons, replace_cons by done.
  simpl. by rewrite Hc, (IH Hp).
Qed.

Lemma replace_absent (a : ascii) (old' new s : string) :
  contains a s = false -> replace (String a old') new s = s.
Proof.
  intros H. rewrite <- (append_nil_r s) at 1.
  rewrite (replace_prefix a old' new s EmptyString H).
  by rewrite replace_nil, append_nil_r.
Qed.

Lemma replace_char_gone (a : ascii) (new s : string) :
  contains a new = false ->
  contains a (replace (String a EmptyString) new s) = false.
Proof.
  intros Hnew. remember (String.length s) as n eqn:Hn. revert s Hn.
  induction n as [n IH] using lt_wf_ind. intros s Hn.
  destruct s as [|c s]; [done|]. rewrite replace_cons by done.
  simpl. destruct (Ascii.eqb a c) eqn:E.
  - rewrite contains_append, Hnew. simpl.
    apply (IH (String.length s)); [simpl in Hn; lia | done].
  - simpl. rewrite E. simpl.
    apply (IH (String.length s)); [simpl in Hn; lia | done].
Qed.

(** X4.  How a path expression becomes a selector: the result holds no
    slash; an expression without slash is passed on as it is; a double
    slash becomes the descendant combinator (a space) and a single slash
    the child combinator [ > ]. *)
Theorem css_selector_conversion (a b : string) :
  contains "/" a = false ->
  starts_with "/" b = None ->
  contains "/" (to_css_selector (a +:+ "//" +:+ b)) = false
  /\ to_css_selector a = a
  /\ to_css_selector (a +:+ "//" +:+ b) = a +:+ " " +:+ to_css_selector b
  /\ to_css_selector (a +:+ "/" +:+ b) = a +:+ " > " +:+ to_css_selector b.
Proof.
  intros Ha Hb. unfold to_css_selector. split; [|split; [|split]].
  - by apply replace_char_gone.
  - by rewrite (replace_absent "/" "/" " " a Ha),
               (replace_absent "/" EmptyString " > " a Ha).
  - rewrite (replace_prefix "/" "/" " " a _ Ha).
    change ("//" +:+ b) with (String "/" (String "/" b)).
    rewrite replace_cons by done. simpl.
    rewrite (replace_prefix "/" EmptyString " > " a _ Ha). by f_equal.
  - rewrite (replace_prefix "/" "/" " " a _ Ha).
    change ("/" +:+ b) with (String "/" b).
    rewrite replace_cons by done.
    assert (starts_with "//" (String "/" b) = None) as ->.
    { simpl. simpl in Hb. by destruct b as [|c b]; [|destruct (Ascii.eqb "/" c)]. }
    rewrite (replace_prefix "/" EmptyString " > " a _ Ha). by f_equal.
Qed.

Lemma css_selector_conversion_witness :
  to_css_selector "order//item" = "order item"
  /\ to_css_selector "order/item" = "order > item".
Proof.
  destruct (css_selector_conversion "order" "item") as (_ & Hid & Hdesc & Hchild);
    [reflexivity | reflexivity |].
  destruct (css_selector_conversion "item" EmptyString) as (_ & Hitem & _);
    [reflexivity | reflexivity |].
  rewrite Hitem in Hdesc, Hchild. split; [exact Hdesc | exact Hchild].
Defined.

Lemma find_some_iff (d : document) (tag : string) :
  soup_find d tag None <> None
  <-> exists e, occurs_in_document e d /\ el_name e = tag.
Proof.
  unfold soup_find, soup_find_all. split.
  - destruct (List.filter _ _) as [|e l] eqn:E; [done|]. intros _.
    assert (He : In e (List.filter (element_matches tag None) (all_elements d)))
      by (rewrite E; by left).
    apply filter_In in He as [Hin Hm]. unfold element_matches in Hm.
    rewrite andb_true_r in Hm. apply bool_decide_eq_true in Hm.
    exists e. split; [|done]. apply all_elements_occurs. by apply list_elem_of_In.
  - intros (e & Hocc & Hn).
    assert (He : In e (List.filter (element_matches tag None) (all_elements d))).
    { apply filter_In. split.
      - apply list_elem_of_In. by apply all_elements_occurs.
      - unfold element_matches. rewrite andb_true_r. by apply bool_decide_eq_true. }
    by destruct (List.filter _ _).
Qed.

Lemma filter_applies_false (d : document) (expr : string) :
  filter_applies expr = false ->
  (if contains "[" expr && contains "]" expr
   then attribute_filter d expr else None) = None.
Proof.
  unfold filter_applies, attribute_filter.
  destruct (contains "[" expr && contains "]" expr); [|done]. simpl.
  destruct (split_once "[" expr) as [[tag part]|]; [|done].
  intros H. apply split_once_none in H. by rewrite H.
Qed.

(** X5.  When the attribute filter does not apply (no bracket pair, or
    no equals sign inside it), the selector engine decides whenever it
    returns: the answer is whether it found anything, and an empty
    result is a plain false, with no fallback.  Only when the engine
    raises does the fallback run: then the answer is whether an element
    named like the last path segment, cut at its first bracket and
    stripped, exists anywhere in the tree. *)
Theorem validate_xpath_like_path (env : environment) (d : document)
    (expr : string) :
  filter_applies expr = false ->
  match soup_select env d (to_css_selector expr) with
  | Some found =>
      validate_xpath_like env (Some d) expr = negb (bool_decide (found = []))
  | None =>
      validate_xpath_like env (Some d) expr = true
      <-> exists e, occurs_in_document e d
                    /\ el_name e =
                       strip is_space (first_segment "[" (last_segment "/" expr))
  end.
Proof.
  intros Hf. unfold validate_xpath_like, validate_xpath_like_step.
  rewrite (filter_applies_false d expr Hf).
  change (replace "/" " > " (replace "//" " " expr)) with (to_css_selector expr).
  destruct (soup_select env d (to_css_selector expr)) as [found|].
  - simpl. by destruct found.
  - simpl. rewrite bool_decide_eq_true. apply find_some_iff.
Qed.

Lemma validate_xpath_like_path_witness :
  validate_xpath_like demo_env (Some demo_document) "order/price" = false
  /\ validate_xpath_like raising_select_env (Some demo_document) "order/item[id]" = true.
Proof.
  pose proof (validate_xpath_like_path demo_env demo_document "order/price"
                eq_refl) as H1.
  pose proof (validate_xpath_like_path raising_select_env demo_document
                "order/item[id]" eq_refl) as H2.
  split; [exact H1|]. apply H2.
  exists (Element "item" {[ "id" := "i1" ]} [] "Laptop"). split; [|reflexivity].
  eexists. split; [by left|].
  eapply occurs_below; [|apply occurs_here]. simpl. by left.
Defined.

(** ** More on the runner: one case *)

Lemma record_results (env : environment) (st : state) (test_name status : string)
    (rt : option Z) (det : option details) (msg : option string) :
  test_results (collector (record env st test_name status rt det msg)) =
  test_results (collector st) ++
  [ {| tr_test_name := test_name; tr_status := status;
       tr_timestamp := now_isoformat env (length (test_results (collector st)));
       tr_response_time_ms := rt; tr_details := det;
       tr_error_message := msg |} ].
Proof.
  unfold record, record_test_result. simpl.
  by destruct (tally status (collector st)) as [[? ?] ?].
Qed.

(** A dispatched case on which the verdict returns. *)
Lemma run_case_evaluated (env : environment) (client : HTTPClient)
    (names : option (list string)) (override_params : option (gmap string pyval))
    (i : nat) (tc : test_case) (st : state) (path : string)
    (status : string) (vr : validation_results) (msg : option string) :
  not_in_run_list names tc = false ->
  tc_path tc = Some path -> path <> EmptyString ->
  evaluate_response env tc
    (normalize_outcome
       (requests_request env (length (sent st))
          (case_request client override_params tc path))
       (elapsed_ms env (length (sent st)))) =
    Returned (status, vr, msg) ->
  exists st',
    run_case env client names override_params i tc st = Finished st'
    /\ test_results (collector st') =
       test_results (collector st) ++
       [ {| tr_test_name := test_name_of tc;
            tr_status := status;
            tr_timestamp := now_isoformat env (length (test_results (collector st)));
            tr_response_time_ms := Some (elapsed_ms env (length (sent st)));
            tr_details :=
              Some {| d_status_code :=
                        rd_status_code
                          (normalize_outcome
                             (requests_request env (length (sent st))
                                (case_request client override_params tc path))
                             (elapsed_ms env (length (sent st))));
                      d_response_time_ms := elapsed_ms env (length (sent st));
                      d_response_success :=
                        rd_success
                          (normalize_outcome
                             (requests_request env (length (sent st))
                                (case_request client override_params tc path))
                             (elapsed_ms env (length (sent st))));
                      d_validation_results := vr |};
            tr_error_message := msg |} ].
Proof.
  intros Hsel Hpath Hne Heval.
  unfold run_case. rewrite Hsel, Hpath.
  destruct path as [|c p]; [done|].
  rewrite send_request_case, Heval.
  eexists. split; [reflexivity|].
  rewrite record_results. simpl. repeat f_equal.
  all: by destruct (requests_request env _ _) as [r|e];
         [|simpl; destruct (exc_is_timeout e), (exc_is_connection_error e)].
Qed.

(** X6.  When the transport fails, a dispatched case is recorded as FAIL
    with the message "HTTP Request failed: " followed by the error
    classification; the details hold no status code and no validation
    result, whatever validations the case declares. *)
Theorem transport_failure_fails (env : environment) (client : HTTPClient)
    (names : option (list string)) (override_params : option (gmap string pyval))
    (i : nat) (tc : test_case) (st : state) (path : string)
    (e : request_exception) :
  not_in_run_list names tc = false ->
  tc_path tc = Some path -> path <> EmptyString ->
  requests_request env (length (sent st))
    (case_request client override_params tc path) = Failed e ->
  exists st',
    run_case env client names override_params i tc st = Finished st'
    /\ test_results (collector st') =
       test_results (collector st) ++
       [ {| tr_test_name := test_name_of tc;
            tr_status := "FAIL";
            tr_timestamp := now_isoformat env (length (test_results (collector st)));
            tr_response_time_ms := Some (elapsed_ms env (length (sent st)));
            tr_details :=
              Some {| d_status_code := None;
                      d_response_time_ms := elapsed_ms env (length (sent st));
                      d_response_success := false;
                      d_validation_results :=
                        {| xml_parseable := None; xpath_validation := None;
                           regex_validation := None |} |};
            tr_error_message :=
              Some ("HTTP Request failed: "
                    +:+ (if exc_is_timeout e then "Timeout"
                         else if exc_is_connection_error e then "ConnectionError"
                         else exc_str e)) |} ].
Proof.
  intros Hsel Hpath Hne Hfail.
  destruct (run_case_evaluated env client names override_params i tc st path
              "FAIL" no_results
              (Some ("HTTP Request failed: "
                     +:+ (if exc_is_timeout e then "Timeout"
                          else if exc_is_connection_error e then "ConnectionError"
                          else exc_str e))))
    as (st' & Hrun & Hres); try done.
  - rewrite Hfail. unfold evaluate_response, normalize_outcome.
    by destruct (exc_is_timeout e), (exc_is_connection_error e).
  - exists st'. split; [done|]. rewrite Hres, Hfail. unfold normalize_outcome.
    by destruct (exc_is_timeout e), (exc_is_connection_error e).
Qed.

Lemma transport_failure_fails_witness :
  (fun r => (tr_status r, tr_error_message r)) <$>
    last_result
      (run_case demo_env demo_client None None 0 (simple_case "Slow" "/down")
         (initial_state [simple_case "Slow" "/down"])) =
  Some ("FAIL", Some "HTTP Request failed: Timeout").
Proof.
  destruct (transport_failure_fails demo_env demo_client None None 0
              (simple_case "Slow" "/down")
              (initial_state [simple_case "Slow" "/down"]) "/down"
              {| exc_is_timeout := true; exc_is_connection_error := false;
                 exc_str := "read timed out" |})
    as (st' & Hrun & Hres);
    [reflexivity | reflexivity | discriminate | reflexivity |].
  unfold last_result. rewrite Hrun. simpl. rewrite Hres.
  rewrite last_snoc. reflexivity.
Defined.

Lemma status_check_passed (tc : test_case) (code : Z) :
  (truthy_int (tc_expected_status tc) = true ->
   tc_expected_status tc = Some code) ->
  truthy_int (tc_expected_status tc)
  && negb (bool_decide (Some code = tc_expected_status tc)) = false
  /\ negb (truthy_int (tc_expected_status tc))
     || bool_decide (Some code = tc_expected_status tc) = true.
Proof.
  intros H. destruct (truthy_int (tc_expected_status tc)); [|done].
  rewrite (H eq_refl). simpl. by rewrite bool_decide_eq_true_2.
Qed.

(** X7.  A non-empty body that the parser cannot turn into a document
    makes the case FAIL with "Could not parse XML response." and
    [xml_parseable = False]; the declared validations are not evaluated
    and the regex engine is not called, so nothing can end the run
    here. *)
Theorem unparseable_body_fails (env : environment) (client : HTTPClient)
    (names : option (list string)) (override_params : option (gmap string pyval))
    (i : nat) (tc : test_case) (st : state) (path : string)
    (resp : http_response) :
  not_in_run_list names tc = false ->
  tc_path tc = Some path -> path <> EmptyString ->
  requests_request env (length (sent st))
    (case_request client override_params tc path) = Responded resp ->
  (truthy_int (tc_expected_status tc) = true ->
   tc_expected_status tc = Some (resp_status_code resp)) ->
  resp_text resp <> EmptyString ->
  BeautifulSoup env (resp_text resp) = None ->
  exists st',
    run_case env client names override_params i tc st = Finished st'
    /\ test_results (collector st') =
       test_results (collector st) ++
       [ {| tr_test_name := test_name_of tc;
            tr_status := "FAIL";
            tr_timestamp := now_isoformat env (length (test_results (collector st)));
            tr_response_time_ms := Some (elapsed_ms env (length (sent st)));
            tr_details :=
              Some {| d_status_code := Some (resp_status_code resp);
                      d_response_time_ms := elapsed_ms env (length (sent st));
                      d_response_success := true;
                      d_validation_results :=
                        {| xml_parseable := Some false; xpath_validation := None;
                           regex_validation := None |} |};
            tr_error_message := Some "Could not parse XML response." |} ].
Proof.
  intros Hsel Hpath Hne Hresp Hstatus Htext Hsoup.
  destruct (run_case_evaluated env client names override_params i tc st path
              "FAIL"
              {| xml_parseable := Some false; xpath_validation := None;
                 regex_validation := None |}
              (Some "Could not parse XML response."))
    as (st' & Hrun & Hres); try done.
  - rewrite Hresp. unfold evaluate_response. simpl.
    destruct (status_check_passed tc _ Hstatus) as [-> _].
    unfold validate_response, XMLParser. simpl.
    destruct (resp_text resp) as [|c t] eqn:Et; [done|].
    by rewrite Hsoup.
  - exists st'. split; [done|]. by rewrite Hres, Hresp.
Qed.

Lemma unparseable_body_fails_witness :
  (fun r => (tr_status r, tr_error_message r)) <$>
    last_result
      (run_case demo_env demo_client None None 0
         {| tc_name := Some "Bad"; tc_method := None; tc_path := Some "/bad";
            tc_expected_status := Some 400; tc_body := VNone; tc_headers := None;
            tc_params := None; tc_validation_xpath := Some "error";
            tc_validation_regex := Some "(" |}
         (initial_state [])) =
  Some ("FAIL", Some "Could not parse XML response.").
Proof.
  destruct (unparseable_body_fails demo_env demo_client None None 0
              {| tc_name := Some "Bad"; tc_method := None; tc_path := Some "/bad";
                 tc_expected_status := Some 400; tc_body := VNone;
                 tc_headers := None; tc_params := None;
                 tc_validation_xpath := Some "error";
                 tc_validation_regex := Some "(" |}
              (initial_state []) "/bad"
              {| resp_status_code := 400; resp_headers := ∅;
                 resp_text := "<error/>" |})
    as (st' & Hrun & Hres);
    [reflexivity | reflexivity | discriminate | reflexivity | reflexivity
    | discriminate | reflexivity |].
  unfold last_result. rewrite Hrun. simpl. rewrite Hres.
  rewrite last_snoc. reflexivity.
Defined.

(** X8.  An empty body counts as parsed: [xml_parseable] is recorded
    True.  Every declared (non-empty) validation is then recorded False
    without the selector or the regex engine being called, so the case
    passes iff it declares no validation, and the message joins the
    reasons of the declared ones. *)
Theorem empty_body_outcome (env : environment) (client : HTTPClient)
    (names : option (list string)) (override_params : option (gmap string pyval))
    (i : nat) (tc : test_case) (st : state) (path : string)
    (resp : http_response) :
  not_in_run_list names tc = false ->
  tc_path tc = Some path -> path <> EmptyString ->
  requests_request env (length (sent st))
    (case_request client override_params tc path) = Responded resp ->
  (truthy_int (tc_expected_status tc) = true ->
   tc_expected_status tc = Some (resp_status_code resp)) ->
  resp_text resp = EmptyString ->
  exists st',
    run_case env client names override_params i tc st = Finished st'
    /\ test_results (collector st') =
       test_results (collector st) ++
       [ {| tr_test_name := test_name_of tc;
            tr_status :=
              if truthy_str (tc_validation_xpath tc)
                 || truthy_str (tc_validation_regex tc)
              then "FAIL" else "PASS";
            tr_timestamp := now_isoformat env (length (test_results (collector st)));
            tr_response_time_ms := Some (elapsed_ms env (length (sent st)));
            tr_details :=
              Some {| d_status_code := Some (resp_status_code resp);
                      d_response_time_ms := elapsed_ms env (length (sent st));
                      d_response_success := true;
                      d_validation_results :=
                        {| xml_parseable := Some true;
                           xpath_validation :=
                             if truthy_str (tc_validation_xpath tc)
                             then Some false else None;
                           regex_validation :=
                             if truthy_str (tc_validation_regex tc)
                             then Some false else None |} |};
            tr_error_message :=
              join_reasons
                ((if truthy_str (tc_validation_xpath tc)
                  then ["XPath validation failed for '"
                        +:+ default EmptyString (tc_validation_xpath tc) +:+ "'"]
                  else [])
                 ++ (if truthy_str (tc_validation_regex tc)
                     then ["Regex validation failed for '"
                           +:+ default EmptyString (tc_validation_regex tc) +:+ "'"]
                     else [])) |} ].
Proof.
  intros Hsel Hpath Hne Hresp Hstatus Htext.
  eapply (run_case_evaluated env client names override_params i tc st path)
    in Hsel as (st' & Hrun & Hres); try done.
  - exists st'. split; [exact Hrun|]. rewrite Hres, Hresp. reflexivity.
  - rewrite Hresp. unfold evaluate_response. simpl.
    destruct (status_check_passed tc _ Hstatus) as [-> ->].
    unfold validate_response, XMLParser. simpl. rewrite Htext.
    unfold validate_xpath_like, validate_content_regex. simpl.
    destruct (tc_validation_xpath tc) as [[|cq q]|],
             (tc_validation_regex tc) as [[|cr r]|]; simpl; try reflexivity.
    unfold add_reason, truthy_str. simpl. by rewrite append_assoc.
Qed.

Lemma empty_body_outcome_witness :
  (fun r => (tr_status r, d_validation_results <$> tr_details r)) <$>
    last_result
      (run_case empty_body_env demo_client None None 0 unbalanced_regex_case
         (initial_state [unbalanced_regex_case])) =
  Some ("FAIL",
        Some {| xml_parseable := Some true; xpath_validation := None;
                regex_validation := Some false |}).
Proof.
  destruct (empty_body_outcome empty_body_env demo_client None None 0
              unbalanced_regex_case (initial_state [unbalanced_regex_case]) "/a"
              {| resp_status_code := 204; resp_headers := ∅;
                 resp_text := EmptyString |})
    as (st' & Hrun & Hres);
    [reflexivity | reflexivity | discriminate | reflexivity | discriminate
    | reflexivity |].
  unfold last_result. rewrite Hrun. simpl. rewrite Hres.
  rewrite last_snoc. reflexivity.
Defined.

(** ** More on the runner: the whole run *)

Lemma run_case_not_dispatched (env : environment) (client : HTTPClient)
    (names : option (list string)) (override_params : option (gmap string pyval))
    (i : nat) (tc : test_case) (st : state) :
  dispatch_path names tc = None ->
  run_case env client names override_params i tc st =
  Finished
    (record env st (test_name_of tc)
       (if not_in_run_list names tc then "SKIP" else "ERROR") None None
       (Some (if not_in_run_list names tc then "Test not in run list."
              else "Missing 'path' in configuration."))).
Proof.
  unfold dispatch_path, run_case.
  destruct (not_in_run_list names tc); [done|].
  by destruct (tc_path tc) as [[|c p]|].
Qed.

Lemma run_case_dispatched (env : environment) (client : HTTPClient)
    (names : option (list string)) (override_params : option (gmap string pyval))
    (i : nat) (tc : test_case) (st : state) (path : string) :
  dispatch_path names tc = Some path ->
  not_in_run_list names tc = false /\ tc_path tc = Some path
  /\ path <> EmptyString.
Proof.
  unfold dispatch_path. destruct (not_in_run_list names tc); [done|].
  destruct (tc_path tc) as [[|c p]|]; try done.
  intros H. by inversion H.
Qed.

Lemma validate_response_verdict (env : environment) (response : response_dict)
    (xp re : option string) (vr : validation_results) (msg : option string)
    (pass : bool) :
  validate_response env response xp re = Returned (vr, msg, pass) ->
  if pass then
    msg = None /\ xml_parseable vr = Some true
    /\ xpath_validation vr <> Some false /\ regex_validation vr <> Some false
  else exists m, msg = Some m.
Proof.
  unfold validate_response.
  set (soup := XMLParser env (rd_content response)).
  assert (Hcore :
    (let '(xpath_recorded, error_message, pass0) :=
       match xp with
       | Some (String _ _ as q) =>
           if validate_xpath_like env soup q then (Some true, None, true)
           else (Some false,
                 add_reason None ("XPath validation failed for '" +:+ q +:+ "'"),
                 false)
       | _ => (None, None, true)
       end in
     match re with
     | Some (String _ _ as r) =>
         match validate_content_regex env soup r with
         | Raised e => Raised e
         | Returned regex_result =>
             if regex_result
             then Returned ({| xml_parseable := Some true;
                               xpath_validation := xpath_recorded;
                               regex_validation := Some regex_result |},
                            error_message, pass0)
             else Returned ({| xml_parseable := Some true;
                               xpath_validation := xpath_recorded;
                               regex_validation := Some regex_result |},
                            add_reason error_message
                              ("Regex validation failed for '" +:+ r +:+ "'"),
                            false)
         end
     | _ => Returned ({| xml_parseable := Some true;
                         xpath_validation := xpath_recorded;
                         regex_validation := None |}, error_message, pass0)
     end) = Returned (vr, msg, pass) ->
    if pass then
      msg = None /\ xml_parseable vr = Some true
      /\ xpath_validation vr <> Some false /\ regex_validation vr <> Some false
    else exists m, msg = Some m).
  { destruct xp as [[|cq q]|]; [| destruct (validate_xpath_like env soup _) |];
      (destruct re as [[|cr r]|];
       [| destruct (validate_content_regex env soup _) as [[|]|] |]);
      intros H; inversion H; subst; simpl; unfold add_reason; eauto. }
  destruct soup as [d|]; [exact Hcore|].
  destruct (rd_content response); [exact Hcore|].
  intros H. inversion H. eauto.
Qed.

Lemma evaluate_response_verdict (env : environment) (tc : test_case)
    (response : response_dict) (status : string) (vr : validation_results)
    (msg : option string) :
  evaluate_response env tc response = Returned (status, vr, msg) ->
  (status = "PASS" /\ msg = None /\ rd_success response = true
   /\ xml_parseable vr = Some true
   /\ xpath_validation vr <> Some false /\ regex_validation vr <> Some false)
  \/ (status = "FAIL" /\ exists m, msg = Some m).
Proof.
  unfold evaluate_response.
  destruct (rd_success response) eqn:Hs; simpl.
  2: { intros H. inversion H. right. eauto. }
  destruct (truthy_int (tc_expected_status tc)),
           (bool_decide (rd_status_code response = tc_expected_status tc));
    simpl;
    try (intros H; inversion H; right; by eauto);
    (destruct (validate_response env response _ _) as [[[vr' msg'] pass]|] eqn:V;
       [|done]);
    apply validate_response_verdict in V;
    (destruct pass; simpl; intros H; inversion H; subst;
       [left; by destruct V as (-> & ? & ? & ?) | by right]).
Qed.

Lemma stored_after_without_overrides (names : option (list string))
    (override_params : option (gmap string pyval)) (tc : test_case) :
  truthy_dict override_params = false ->
  stored_after names override_params tc = tc.
Proof.
  intros H. unfold stored_after. rewrite H.
  by destruct (dispatch_path names tc), (tc_params tc).
Qed.

Lemma run_case_config_any (env : environment) (client : HTTPClient)
    (names : option (list string)) (override_params : option (gmap string pyval))
    (i : nat) (tc : test_case) (st : state) :
  tests_config st !! i = Some tc ->
  tests_config (outcome_state (run_case env client names override_params i tc st)) =
  <[i := stored_after names override_params tc]> (tests_config st).
Proof.
  intros Hi. unfold stored_after.
  destruct (dispatch_path names tc) as [path|] eqn:D.
  - destruct (run_case_dispatched env client names override_params i tc st path D)
      as (Hsel & Hpath & Hne).
    rewrite (run_case_config env client names override_params i tc st path Hsel Hpath Hne).
    destruct (tc_params tc); [destruct (truthy_dict override_params)|];
      try done; by rewrite list_insert_id.
  - rewrite (run_case_not_dispatched env client names override_params i tc st D).
    simpl. by rewrite list_insert_id.
Qed.


(** What one iteration does to the collector. *)
Lemma run_case_collector (env : environment) (client : HTTPClient)
    (names : option (list string)) (override_params : option (gmap string pyval))
    (i : nat) (tc : test_case) (st : state) :
  match run_case env client names override_params i tc st with
  | Finished st' =>
      exists status rt det msg,
        collector st' =
          record_test_result
            (now_isoformat env (length (test_results (collector st))))
            (collector st) (test_name_of tc) status rt det msg
        /\ known_status status = true
        /\ result_of names tc
             {| tr_test_name := test_name_of tc; tr_status := status;
                tr_timestamp :=
                  now_isoformat env (length (test_results (collector st)));
                tr_response_time_ms := rt; tr_details := det;
                tr_error_message := msg |}
        /\ result_consistent
             {| tr_test_name := test_name_of tc; tr_status := status;
                tr_timestamp :=
                  now_isoformat env (length (test_results (collector st)));
                tr_response_time_ms := rt; tr_details := det;
                tr_error_message := msg |}
  | Aborted _ st' => collector st' = collector st
  end.
Proof.
  destruct (dispatch_path names tc) as [path|] eqn:D.
  - destruct (run_case_dispatched env client names override_params i tc st path D)
      as (Hsel & Hpath & Hne).
    unfold run_case. rewrite Hsel, Hpath. destruct path as [|c p]; [done|].
    destruct (evaluate_response _ _ _) as [[[status vr] msg]|e] eqn:E; [|done].
    apply evaluate_response_verdict in E.
    eexists status, _, _, msg. split; [reflexivity|].
    unfold result_of, result_consistent. rewrite Hsel, D. simpl.
    destruct E as [(-> & -> & Hs & Hp & Hx & Hr) | (-> & m & ->)].
    + repeat split; eauto. intros _. eexists. split; [reflexivity|]. done.
    + repeat split; eauto; try done.
  - rewrite (run_case_not_dispatched env client names override_params i tc st D).
    eexists _, None, None, _. split; [reflexivity|].
    unfold result_of, result_consistent. rewrite D. simpl.
    destruct (not_in_run_list names tc); repeat split; try done.
Qed.

Lemma record_test_result_results (now : string) (s : stats)
    (test_name status : string) (rt : option Z) (det : option details)
    (msg : option string) :
  test_results (record_test_result now s test_name status rt det msg) =
  test_results s ++
  [ {| tr_test_name := test_name; tr_status := status; tr_timestamp := now;
       tr_response_time_ms := rt; tr_details := det; tr_error_message := msg |} ].
Proof.
  unfold record_test_result. by destruct (tally status s) as [[? ?] ?].
Qed.

Lemma record_test_result_total (now : string) (s : stats)
    (test_name status : string) (rt : option Z) (det : option details)
    (msg : option string) :
  total_tests (record_test_result now s test_name status rt det msg) =
  total_tests s + 1.
Proof.
  unfold record_test_result. by destruct (tally status s) as [[? ?] ?].
Qed.

(** The loop, seen from the result sequence. *)
Lemma run_loop_results (env : environment) (client : HTTPClient)
    (names : option (list string)) (override_params : option (gmap string pyval))
    (cases : list test_case) (i : nat) (st : state) :
  exists rs,
    test_results
      (collector (outcome_state (run_loop env client names override_params i cases st))) =
      test_results (collector st) ++ rs
    /\ Forall result_consistent rs
    /\ forall st',
         run_loop env client names override_params i cases st = Finished st' ->
         Forall2 (result_of names) cases rs.
Proof.
  revert i st. induction cases as [|tc cases IH]; intros i st; simpl.
  - exists []. rewrite app_nil_r. split; [done|]. split; [constructor|].
    intros; constructor.
  - pose proof (run_case_collector env client names override_params i tc st) as Hc.
    destruct (run_case env client names override_params i tc st) as [st1|e st1].
    + destruct Hc as (status & rt & det & msg & Hcol & Hk & Hof & Hcons).
      destruct (IH (S i) st1) as (rs & Hrs & Hall & Hm).
      eexists (_ :: rs). split.
      { rewrite Hrs, Hcol, record_test_result_results, <- app_assoc. reflexivity. }
      split; [by constructor|].
      intros st' Hfin. constructor; [done|]. by apply (Hm st').
    + simpl. rewrite Hc. exists []. rewrite app_nil_r.
      split; [done|]. split; [constructor|]. done.
Qed.

(** The loop, seen from the counters. *)
Lemma run_loop_counters (env : environment) (client : HTTPClient)
    (names : option (list string)) (override_params : option (gmap string pyval))
    (cases : list test_case) (i : nat) (st : state) :
  total_tests (collector st) =
    passed_tests (collector st) + failed_tests (collector st)
    + skipped_tests (collector st) ->
  counters_agree (collector st) ->
  total_tests (collector (outcome_state (run_loop env client names override_params i cases st))) =
    passed_tests (collector (outcome_state (run_loop env client names override_params i cases st)))
    + failed_tests (collector (outcome_state (run_loop env client names override_params i cases st)))
    + skipped_tests (collector (outcome_state (run_loop env client names override_params i cases st)))
  /\ counters_agree
       (collector (outcome_state (run_loop env client names override_params i cases st)))
  /\ forall st',
       run_loop env client names override_params i cases st = Finished st' ->
       total_tests (collector st') =
       total_tests (collector st) + Z.of_nat (length cases).
Proof.
  revert i st. induction cases as [|tc cases IH]; intros i st Hsum Hagree; simpl.
  - split; [done|]. split; [done|]. intros st' H. inversion H. subst. simpl. lia.
  - pose proof (run_case_collector env client names override_params i tc st) as Hc.
    destruct (run_case env client names override_params i tc st) as [st1|e st1].
    + destruct Hc as (status & rt & det & msg & Hcol & Hk & _ & _).
      destruct (record_test_result_invariant
                  (now_isoformat env (length (test_results (collector st))))
                  (collector st) (test_name_of tc) status rt det msg Hk Hsum Hagree)
        as [Hsum1 Hagree1].
      rewrite <- Hcol in Hsum1, Hagree1.
      destruct (IH (S i) st1 Hsum1 Hagree1) as (H1 & H2 & H3).
      split; [done|]. split; [done|].
      intros st' Hfin. rewrite (H3 st' Hfin), Hcol, record_test_result_total. lia.
    + simpl. rewrite Hc. split; [done|]. split; done.
Qed.

(** The loop, seen from the configuration. *)
Lemma run_loop_config (env : environment) (client : HTTPClient)
    (names : option (list string)) (override_params : option (gmap string pyval))
    (cases pre : list test_case) (i : nat) (st : state) :
  tests_config st = pre ++ cases -> length pre = i ->
  exists k,
    tests_config (outcome_state (run_loop env client names override_params i cases st)) =
      pre ++ (stored_after names override_params <$> take k cases) ++ drop k cases
    /\ forall st',
         run_loop env client names override_params i cases st = Finished st' ->
         k = length cases.
Proof.
  revert pre i st. induction cases as [|tc cases IH]; intros pre i st Hcfg Hlen; simpl.
  - exists 0%nat. by rewrite Hcfg.
  - assert (Hi : tests_config st !! i = Some tc).
    { rewrite Hcfg, <- Hlen. by apply list_lookup_middle. }
    pose proof (run_case_config_any env client names override_params i tc st Hi) as Hc.
    rewrite Hcfg in Hc.
    assert (Hins : <[i := stored_after names override_params tc]> (pre ++ tc :: cases)
                   = (pre ++ [stored_after names override_params tc]) ++ cases).
    { rewrite <- Hlen, insert_app_r_alt by lia.
      rewrite Nat.sub_diag. simpl. by rewrite <- app_assoc. }
    rewrite Hins in Hc.
    destruct (run_case env client names override_params i tc st) as [st1|e st1].
    + destruct (IH (pre ++ [stored_after names override_params tc]) (S i) st1 Hc)
        as (k & Hk & Hfin).
      { rewrite length_app. simpl. lia. }
      exists (S k). split.
      * rewrite Hk. simpl. by rewrite <- !app_assoc.
      * intros st' H. by rewrite (Hfin st' H).
    + exists 1%nat. split; [|done]. simpl in *. rewrite Hc, drop_0.
      by rewrite <- app_assoc.
Qed.


(** X9.  In a run that comes to its end, the results recorded for the
    definitions follow them one to one, in order, and each result shows
    the gate its case stopped at: SKIP for a case outside a non-empty
    run list, ERROR for a listed case without path, both without details
    and response time and with their fixed message, and PASS or FAIL
    with details and response time for a dispatched case. *)
Theorem run_results_classified (env : environment) (client : HTTPClient)
    (names : option (list string)) (override_params : option (gmap string pyval))
    (st st' : state) :
  run_tests env client names override_params st = Finished st' ->
  exists rs,
    test_results (collector st') = test_results (collector st) ++ rs
    /\ Forall2 (result_of names) (tests_config st) rs.
Proof.
  intros Hfin. unfold run_tests in Hfin.
  destruct (run_loop_results env client names override_params (tests_config st) 0 st)
    as (rs & Hrs & _ & Hm).
  rewrite Hfin in Hrs. exists rs. split; [exact Hrs|]. by apply (Hm st').
Qed.

Lemma run_results_classified_witness :
  exists rs,
    test_results
      (collector
         (outcome_state
            (run_tests demo_env demo_client demo_run_list demo_overrides
               (initial_state demo_suite)))) = [] ++ rs
    /\ Forall2 (result_of demo_run_list) demo_suite rs.
Proof.
  apply (run_results_classified demo_env demo_client demo_run_list demo_overrides
           (initial_state demo_suite)
           (outcome_state
              (run_tests demo_env demo_client demo_run_list demo_overrides
                 (initial_state demo_suite)))).
  vm_compute. reflexivity.
Defined.

(** X10.  Every result a run records tells one story: a PASS result has
    no error message and comes with details of a received response that
    parsed and with no validation recorded as failed; a result of any
    other status has an error message.  This holds for the results of a
    run that an exception ended as well. *)
Theorem run_results_consistent (env : environment) (client : HTTPClient)
    (names : option (list string)) (override_params : option (gmap string pyval))
    (st : state) :
  Forall result_consistent (test_results (collector st)) ->
  Forall result_consistent
    (test_results
       (collector (outcome_state (run_tests env client names override_params st)))).
Proof.
  intros Hold. unfold run_tests.
  destruct (run_loop_results env client names override_params (tests_config st) 0 st)
    as (rs & Hrs & Hall & _).
  rewrite Hrs. by apply Forall_app.
Qed.

Lemma run_results_consistent_witness :
  Forall result_consistent
    (test_results
       (collector
          (outcome_state
             (run_tests demo_env demo_client demo_run_list demo_overrides
                (initial_state demo_suite))))).
Proof.
  apply (run_results_consistent demo_env demo_client demo_run_list demo_overrides
           (initial_state demo_suite)).
  simpl. constructor.
Defined.

(** X11.  A run keeps the collector's counters right: if they sum up and
    agree with the result sequence before the run, they do after it,
    also when an exception ended it; and a run that comes to its end has
    raised the total by the number of definitions. *)
Theorem run_keeps_counters (env : environment) (client : HTTPClient)
    (names : option (list string)) (override_params : option (gmap string pyval))
    (st : state) :
  total_tests (collector st) =
    passed_tests (collector st) + failed_tests (collector st)
    + skipped_tests (collector st) ->
  counters_agree (collector st) ->
  total_tests (collector (outcome_state (run_tests env client names override_params st))) =
    passed_tests (collector (outcome_state (run_tests env client names override_params st)))
    + failed_tests (collector (outcome_state (run_tests env client names override_params st)))
    + skipped_tests (collector (outcome_state (run_tests env client names override_params st)))
  /\ counters_agree
       (collector (outcome_state (run_tests env client names override_params st)))
  /\ forall st',
       run_tests env client names override_params st = Finished st' ->
       total_tests (collector st') =
       total_tests (collector st) + Z.of_nat (length (tests_config st)).
Proof.
  intros Hsum Hagree. unfold run_tests.
  by apply run_loop_counters.
Qed.

Lemma run_keeps_counters_witness :
  total_tests
    (collector
       (outcome_state
          (run_tests demo_env demo_client demo_run_list demo_overrides
             (initial_state demo_suite)))) = 5
  /\ counters_agree
       (collector
          (outcome_state
             (run_tests demo_env demo_client demo_run_list demo_overrides
                (initial_state demo_suite)))).
Proof.
  destruct (run_keeps_counters demo_env demo_client demo_run_list demo_overrides
              (initial_state demo_suite))
    as (_ & Hagree & Htotal); [reflexivity | by repeat split |].
  split; [|exact Hagree].
  apply (Htotal (outcome_state
                   (run_tests demo_env demo_client demo_run_list demo_overrides
                      (initial_state demo_suite)))).
  vm_compute. reflexivity.
Defined.

(** X12.  A run without overrides ([None] or an empty mapping) leaves
    the configuration as it was, however the run ends. *)
Theorem run_without_overrides_keeps_config (env : environment)
    (client : HTTPClient) (names : option (list string))
    (override_params : option (gmap string pyval)) (st : state) :
  truthy_dict override_params = false ->
  tests_config (outcome_state (run_tests env client names override_params st)) =
  tests_config st.
Proof.
  intros Hov. unfold run_tests.
  destruct (run_loop_config env client names override_params (tests_config st) []
              0 st eq_refl eq_refl) as (k & Hk & _).
  rewrite Hk. simpl.
  rewrite (list_fmap_ext (stored_after names override_params) id (take k (tests_config st))).
  - by rewrite list_fmap_id, take_drop.
  - intros j tc _. by apply stored_after_without_overrides.
Qed.

Lemma run_without_overrides_keeps_config_witness :
  tests_config
    (outcome_state
       (run_tests demo_env demo_client demo_run_list (Some ∅)
          (initial_state demo_suite))) = demo_suite.
Proof.
  apply (run_without_overrides_keeps_config demo_env demo_client demo_run_list
           (Some ∅) (initial_state demo_suite)).
  reflexivity.
Defined.











(** ** The statistics collector, once more *)

Lemma record_one_deficit (s : stats) (r : recording) :
  total_tests (record_one s r)
  - (passed_tests (record_one s r) + failed_tests (record_one s r)
     + skipped_tests (record_one s r)) =
  total_tests s - (passed_tests s + failed_tests s + skipped_tests s)
  + (if known_status (rec_status r) then 0 else 1).
Proof.
  unfold record_one, record_test_result, tally, known_status.
  destruct (String.eqb (rec_status r) "PASS"); [simpl; lia|].
  destruct (String.eqb (rec_status r) "FAIL"); [simpl; lia|].
  destruct (String.eqb (rec_status r) "SKIP"); [simpl; lia|].
  destruct (String.eqb (rec_status r) "ERROR"); simpl; lia.
Qed.

Lemma record_all_deficit (rs : list recording) (s : stats) :
  total_tests (record_all rs s)
  - (passed_tests (record_all rs s) + failed_tests (record_all rs s)
     + skipped_tests (record_all rs s)) =
  total_tests s - (passed_tests s + failed_tests s + skipped_tests s)
  + count_unknown rs.
Proof.
  revert s. induction rs as [|r rs IH]; intros s.
  - unfold count_unknown. simpl. lia.
  - simpl. rewrite IH, record_one_deficit. unfold count_unknown. simpl.
    destruct (known_status (rec_status r)); simpl; lia.
Qed.

(** X16.  After any sequence of recordings on a fresh collector, the
    total exceeds the sum of the passed, failed and skipped counters by
    the number of recordings whose status label is none of PASS, FAIL,
    SKIP, ERROR (a label in lower case, say): such a result is appended
    and counted in the total, but in no tally. *)
Theorem record_all_unknown_status (rs : list recording) :
  total_tests (record_all rs initial_stats) =
  passed_tests (record_all rs initial_stats)
  + failed_tests (record_all rs initial_stats)
  + skipped_tests (record_all rs initial_stats)
  + count_unknown rs
  /\ total_tests (record_all rs initial_stats) = Z.of_nat (length rs).
Proof.
  split.
  - pose proof (record_all_deficit rs initial_stats) as H. simpl in H. lia.
  - assert (Hgen : forall s, total_tests (record_all rs s) =
                             total_tests s + Z.of_nat (length rs)).
    { induction rs as [|r rs IH]; intros s; simpl; [lia|].
      rewrite IH. unfold record_one. rewrite record_test_result_total. lia. }
    rewrite Hgen. simpl. lia.
Qed.

(** ** The configuration *)

Lemma split_all_absent (c : ascii) (s : string) :
  contains c s = false -> split_all c s = [s].
Proof.
  induction s as [|d s IH]; intros H; [done|].
  simpl in H. apply orb_false_iff in H as [Hd Hs].
  simpl. by rewrite Hd, (IH Hs).
Qed.

Lemma split_all_first (c : ascii) (k rest : string) :
  contains c k = false ->
  split_all c (k +:+ String c rest) = k :: split_all c rest.
Proof.
  induction k as [|d k IH]; intros H.
  - rewrite append_nil_l. simpl. by rewrite Ascii.eqb_refl.
  - simpl in H. apply orb_false_iff in H as [Hd Hk].
    rewrite append_cons. simpl. by rewrite Hd, (IH Hk).
Qed.

Lemma split_all_segments (c : ascii) (s : string) :
  exists seg segs,
    split_all c s = seg :: segs /\ Forall (fun x => contains c x = false) (seg :: segs).
Proof.
  induction s as [|d s (seg & segs & Heq & Hall)]; simpl.
  - exists EmptyString, []. split; [done|]. by repeat constructor.
  - destruct (Ascii.eqb c d) eqn:E.
    + exists EmptyString, (seg :: segs). rewrite Heq. split; [done|].
      by constructor.
    + rewrite Heq. exists (String d seg), segs. split; [done|].
      inversion Hall; subst. constructor; [|done]. simpl. by rewrite E.
Qed.

(** X17.  How [get] walks a dotted key: a key without dot is looked up
    in the configuration mapping, and a key [k.rest] is [rest] looked up
    in the mapping stored under [k]; when the value at hand is no
    mapping or lacks the key, the default comes back.  A key that is
    present with a null value yields that null, not the default. *)
Theorem config_get_walk (config : yaml) (k rest : string) (default : yaml) :
  contains "." k = false ->
  ConfigManager.get config k default =
    match config with
    | YDict m => match m !! k with Some v => v | None => default end
    | _ => default
    end
  /\ ConfigManager.get config (k +:+ "." +:+ rest) default =
     match config with
     | YDict m =>
         match m !! k with
         | Some v => ConfigManager.get v rest default
         | None => default
         end
     | _ => default
     end.
Proof.
  intros Hk. unfold ConfigManager.get. split.
  - rewrite (split_all_absent "." k Hk). simpl.
    by destruct config.
  - change ("." +:+ rest) with (String "." rest).
    by rewrite (split_all_first "." k rest Hk).
Qed.

Lemma config_get_walk_witness :
  ConfigManager.get demo_config "endpoints.base_url" YNone = YStr "http://host"
  /\ ConfigManager.get demo_config "endpoints.timeout" (YInt 10) = YNone
  /\ ConfigManager.get demo_config "general.log_level.name" (YStr "INFO") = YStr "INFO".
Proof.
  destruct (config_get_walk demo_config "endpoints" "base_url" YNone eq_refl)
    as [_ H1].
  destruct (config_get_walk demo_config "endpoints" "timeout" (YInt 10) eq_refl)
    as [_ H2].
  destruct (config_get_walk demo_config "general" "log_level.name" (YStr "INFO")
              eq_refl) as [_ H3].
  split; [exact H1 | split; [exact H2 | exact H3]].
Defined.

(** X18.  An entry whose name contains a dot cannot be reached: adding,
    changing or removing it in the configuration mapping changes the
    answer of [get] for no key. *)
Theorem config_get_ignores_dotted_entries (m : gmap string yaml)
    (k key : string) (v default : yaml) :
  contains "." k = true ->
  ConfigManager.get (YDict (<[k := v]> m)) key default =
  ConfigManager.get (YDict m) key default.
Proof.
  intros Hk. unfold ConfigManager.get.
  destruct (split_all_segments "." key) as (seg & segs & -> & Hall).
  inversion Hall as [|? ? Hseg _]; subst. simpl.
  rewrite lookup_insert_ne; [done|]. intros ->. by rewrite Hk in Hseg.
Qed.

Lemma config_get_ignores_dotted_entries_witness :
  ConfigManager.get demo_config "endpoints.base_url" YNone = YStr "http://host".
Proof.
  unfold demo_config.
  rewrite (config_get_ignores_dotted_entries demo_config_map "endpoints.base_url"
             "endpoints.base_url" (YStr "http://elsewhere") YNone eq_refl).
  reflexivity.
Defined.

(** X19.  A runner can be constructed iff the configuration is a mapping
    whose [endpoints] entry is a mapping with a truthy [base_url];
    otherwise construction raises [ValueError] before any test runs. *)
Theorem runner_needs_base_url (config : yaml) :
  (exists u t h ts, TestRunner_init config = Runner u t h ts)
  <-> exists m e u,
        config = YDict m /\ m !! "endpoints" = Some (YDict e)
        /\ e !! "base_url" = Some u /\ py_truthy u = true.
Proof.
  assert (Houter : forall c,
    ConfigManager.get c "endpoints.base_url" YNone =
    match c with
    | YDict m =>
        match m !! "endpoints" with
        | Some v => ConfigManager.get v "base_url" YNone
        | None => YNone
        end
    | _ => YNone
    end).
  { intros c. exact (proj2 (config_get_walk c "endpoints" "base_url" YNone eq_refl)). }
  assert (Hinner : forall v,
    ConfigManager.get v "base_url" YNone =
    match v with
    | YDict e => match e !! "base_url" with Some u => u | None => YNone end
    | _ => YNone
    end).
  { intros v. exact (proj1 (config_get_walk v "base_url" EmptyString YNone eq_refl)). }
  unfold TestRunner_init. rewrite Houter. split.
  - intros (u & t & h & ts & H).
    destruct config as [| | | | |m]; try done.
    destruct (m !! "endpoints") as [v|] eqn:Em; [|done].
    rewrite Hinner in H.
    destruct v as [| | | | |e]; try done.
    destruct (e !! "base_url") as [b|] eqn:Eb; [|done].
    destruct (py_truthy b) eqn:Hb; [|done].
    by exists m, e, b.
  - intros (m & e & u & -> & Hm & He & Hu). rewrite Hm, Hinner, He, Hu.
    simpl. by eexists _, _, _, _.
Qed.

Lemma runner_needs_base_url_witness :
  exists u t h ts, TestRunner_init demo_config = Runner u t h ts.
Proof.
  apply (runner_needs_base_url demo_config).
  exists (<[ "endpoints.base_url" := YStr "http://elsewhere" ]> demo_config_map),
         {[ "base_url" := YStr "http://host"; "timeout" := YNone ]},
         (YStr "http://host").
  repeat split; reflexivity.
Defined.

(** ** Command-line parameters *)

(** X20.  The [-p] arguments are read from left to right: an argument
    [key=value] is split at its first equals sign and sets [key] to the
    string [value], replacing an earlier setting; an argument without
    equals sign changes nothing; every value in the mapping is a
    string. *)
Theorem parse_override_params_spec (before after : list string)
    (key value junk : string) :
  contains "=" key = false ->
  contains "=" junk = false ->
  parse_override_params (before ++ [key +:+ "=" +:+ value]) =
    <[key := VStr value]> (parse_override_params before)
  /\ parse_override_params (before ++ junk :: after) =
     parse_override_params (before ++ after)
  /\ forall k x, parse_override_params before !! k = Some x ->
                 exists s, x = VStr s.
Proof.
  intros Hkey Hjunk. unfold parse_override_params. split; [|split].
  - rewrite fold_left_app. simpl.
    change ("=" +:+ value) with (String "=" value).
    rewrite contains_append. simpl. rewrite orb_true_r.
    by rewrite (split_once_first "=" key value Hkey).
  - rewrite !fold_left_app. simpl. by rewrite Hjunk.
  - induction before as [|p before IH] using rev_ind; intros k x.
    + simpl. by rewrite lookup_empty.
    + rewrite fold_left_app. simpl.
      destruct (contains "=" p); [|apply IH].
      destruct (split_once "=" p) as [[pk pv]|]; [|apply IH].
      destruct (decide (pk = k)) as [->|Hne].
      * rewrite lookup_insert_eq. intros H. inversion H. by eexists.
      * rewrite lookup_insert_ne by done. apply IH.
Qed.

Lemma parse_override_params_spec_witness :
  parse_override_params ["id=1"; "verbose"; "id=a=b"] = {[ "id" := VStr "a=b" ]}
  /\ parse_override_params ["id=1"; "verbose"] = parse_override_params ["id=1"].
Proof.
  destruct (parse_override_params_spec ["id=1"; "verbose"] [] "id" "a=b" "verbose")
    as (Hlast & _); [reflexivity | reflexivity |].
  destruct (parse_override_params_spec ["id=1"] [] "id" "1" "verbose")
    as (_ & Hjunk & _); [reflexivity | reflexivity |].
  split; [|exact Hjunk].
  etransitivity; [exact Hlast|]. reflexivity.
Defined.

(** ** The logger *)




